(** * LookingGlass gateway: session lifecycle and proxy routing

    A shallow embedding of [main.go]: the session registry
    ([sessions] guarded by [sessionsMu]), the handlers [login],
    [session], [proxyHandler], [ping], [logout], the idle reaper
    [cleanupLoop], the teardown [stopSession] and the allocator
    ([randSeq], [randomPort]).

    The handlers are written in a small state monad over a [World]:
    the registry, the mutex, the random generator, the monotonic clock,
    the host (files, mounts) and the trace of the commands the gateway
    has run.  What the gateway cannot decide itself (the readings of the
    clock, whether a command succeeds, the configuration files) is an
    [Env] the handlers are parameterised by. *)

From Stdlib Require Import ZArith Ascii String List Lia Bool.
From stdpp Require Import gmap strings list fin_maps.

Local Open Scope string_scope.
Local Open Scope Z_scope.
Local Open Scope list_scope.

(** ** Strings: the functions of Go's [strings] package the gateway uses *)

Module strings.

(** [strings.HasPrefix s prefix]. *)
Fixpoint HasPrefix (s prefix : string) {struct prefix} : bool :=
  match prefix with
  | EmptyString => true
  | String c prefix' =>
      match s with
      | EmptyString => false
      | String d s' => Ascii.eqb c d && HasPrefix s' prefix'
      end
  end.

(** [s[n:]] for [n <= len(s)]. *)
Fixpoint drop (n : nat) (s : string) : string :=
  match n with
  | O => s
  | S k => match s with
           | EmptyString => EmptyString
           | String _ s' => drop k s'
           end
  end.

(** [strings.TrimPrefix s prefix]: [s] without the leading [prefix];
    [s] itself when it does not start with [prefix]. *)
Definition TrimPrefix (s prefix : string) : string :=
  if HasPrefix s prefix then drop (String.length prefix) s else s.

(** [strings.Cut s sep] for a one-byte separator: the text before and
    after the first [sep], if there is one. *)
Fixpoint Cut (sep : ascii) (s : string) : option (string * string) :=
  match s with
  | EmptyString => None
  | String c s' =>
      if Ascii.eqb c sep then Some (EmptyString, s')
      else match Cut sep s' with
           | Some (a, b) => Some (String c a, b)
           | None => None
           end
  end.

(** [strings.SplitN s sep 2] for a one-byte separator: at most two
    substrings, the second being the unsplit remainder. *)
Definition SplitN2 (s : string) (sep : ascii) : list string :=
  match Cut sep s with
  | Some (a, b) => [a; b]
  | None => [s]
  end.

(** [strings.Split s sep] for a one-byte separator. *)
Fixpoint Split (sep : ascii) (s : string) : list string :=
  match s with
  | EmptyString => [EmptyString]
  | String c s' =>
      if Ascii.eqb c sep then EmptyString :: Split sep s'
      else match Split sep s' with
           | h :: t => String c h :: t
           | [] => [String c EmptyString]
           end
  end.

(** [s] does not contain the byte [sep]. *)
Fixpoint no_sep (sep : ascii) (s : string) : bool :=
  match s with
  | EmptyString => true
  | String c s' => negb (Ascii.eqb c sep) && no_sep sep s'
  end.

(** [strings.Join elems sep]. *)
Fixpoint Join (elems : list string) (sep : string) : string :=
  match elems with
  | [] => EmptyString
  | [e] => e
  | e :: rest => e +:+ sep +:+ Join rest sep
  end.

End strings.

(** ** Paths: [filepath.Join] and [filepath.Clean] on a Unix host *)

Module filepath.

(** One step of [Clean] over the components seen so far ([out], most
    recent first): empty and [.] components vanish, [..] removes the
    component before it, is dropped at the root, and is kept at the
    start of a relative path. *)
Definition clean_step (rooted : bool) (out : list string) (comp : string)
  : list string :=
  if String.eqb comp "" || String.eqb comp "." then out
  else if String.eqb comp ".." then
    match out with
    | [] => if rooted then [] else [".."]
    | last :: out' => if String.eqb last ".." then ".." :: out else out'
    end
  else comp :: out.

Definition Clean (path : string) : string :=
  match path with
  | EmptyString => "."
  | String c _ =>
      let rooted := Ascii.eqb c "/" in
      let out := rev (fold_left (clean_step rooted) (strings.Split "/" path) []) in
      match out with
      | [] => if rooted then "/" else "."
      | _ => (if rooted then "/" else "") +:+ strings.Join out "/"
      end
  end.

(** [filepath.Join]: the elements from the first non-empty one on are
    joined with [/] and the result is cleaned; no non-empty element
    gives the empty string. *)
Fixpoint Join (elem : list string) : string :=
  match elem with
  | [] => EmptyString
  | e :: rest =>
      if String.eqb e "" then Join rest
      else Clean (strings.Join elem "/")
  end.

(** [q] is [dir] or lies below it. *)
Definition under (dir q : string) : bool :=
  String.eqb dir q || strings.HasPrefix q (dir +:+ "/").

(** A path component that [Clean] keeps as it is. *)
Definition plain (leaf : string) : bool :=
  strings.no_sep "/" leaf
  && negb (String.eqb leaf "" || String.eqb leaf "." || String.eqb leaf "..").

(** The directories [os.MkdirAll path] makes sure exist: [path] and
    its parents, outermost first. *)
Fixpoint chain_from (pre : string) (comps : list string) : list string :=
  match comps with
  | [] => []
  | c :: rest =>
      if String.eqb c "" then chain_from pre rest
      else let p := pre +:+ c in p :: chain_from (p +:+ "/") rest
  end.

Definition chain (path : string) : list string :=
  match path with
  | EmptyString => []
  | String c _ =>
      chain_from (if Ascii.eqb c "/" then "/" else "") (strings.Split "/" path)
  end.

End filepath.

(** ** Data model *)

(** A [time.Time] as [time.Now] returns it: the wall-clock reading (what
    [UnixNano] reports) and the monotonic reading (what [time.Since] and
    the comparison of two such times use).  Both in nanoseconds. *)
Record Time := mkTime { wall : Z; mono : Z }.

(** [u] is not before [t]. *)
Definition Time_le (t u : Time) : Prop := mono t <= mono u.

(** Session holds information about a running user desktop. *)
Record Session := mkSession {
  Username : string;
  ContainerName : string;
  OverlayDir : string;
  Port : Z;
  LastActive : Time;
  Ephemeral : bool
}.

Definition touch (s : Session) (now : Time) : Session :=
  {| Username := Username s; ContainerName := ContainerName s;
     OverlayDir := OverlayDir s; Port := Port s;
     LastActive := now; Ephemeral := Ephemeral s |}.

Definition userConfDir : string := "./users".
Definition baseOverlay : string := "/srv/overlays/base".
Definition Minute : Z := 60 * 1000000000.
Definition sessionExpiry : Z := 10 * Minute.

Definition letters : list ascii :=
  list_ascii_of_string "abcdefghijklmnopqrstuvwxyz0123456789".

(** The request as the handlers read it: the URL path and the parsed
    form ([None] when [ParseForm] fails). *)
Record Request := mkRequest {
  Path : string;
  Form : option (list (string * string))
}.

(** [r.FormValue key]: the first value of [key], the empty string when
    there is none. *)
Fixpoint FormValue (form : list (string * string)) (key : string) : string :=
  match form with
  | [] => ""
  | (k, v) :: rest => if String.eqb k key then v else FormValue rest key
  end.

(** What a handler answers. [Forward] is the request handed to the
    reverse proxy for [host:port] with its path rewritten. *)
Inductive Response :=
| HttpError (msg : string) (code : Z)
| Redirect (url : string) (code : Z)
| Render (template : string) (sessionID : option string)
| Status (code : Z)
| Forward (host : string) (port : Z) (path : string).

(** The commands the gateway runs on the host. *)
Inductive Cmd :=
| MkdirAll (path : string)
| Mount (lower upper work merged : string)
| DockerRun (port : Z) (name merged : string)
| Umount (merged : string)
| DockerRm (name : string)
| RemoveAll (path : string).

(** What the gateway did, in order: a command whose error it looked at
    ([Ran], with the error if any), a command whose result it dropped
    ([Fired]), a line of the log. *)
Inductive Event :=
| Ran (c : Cmd) (err : option string)
| Fired (c : Cmd)
| Logged (line : string).

(** A user's configuration file as [login] sees it: absent, unreadable,
    or giving [password] and [overlay] of section [user] (a missing key
    reads as the empty string). *)
Inductive ConfFile :=
| NoFile
| Unreadable
| Conf (password overlay : string).

(** The random source behind [math/rand]: [Seed] resets it, [Intn n]
    draws from [0, n). *)
Class Rand := {
  RngState : Type;
  Seed : Z -> RngState;
  Intn : Z -> RngState -> Z * RngState;
  Intn_range : forall n g, 0 < n -> 0 <= fst (Intn n g) < n
}.

(** What the host decides: the configuration files, how much time has
    passed and what the wall clock shows at the k-th reading of the
    clock, and whether a command fails given what ran before it. *)
Record Env := mkEnv {
  conf_files : string -> ConfFile;
  env_elapse : nat -> N;
  env_wall : nat -> Z;
  env_fail : list Event -> Cmd -> option string
}.

(** ** The world and the monad of the handlers *)

Section Gateway.

Context {R : Rand} (E : Env).

(** The state the gateway runs in: the registry and its mutex, the
    generator of [math/rand], the monotonic clock at its last reading
    and the number of readings so far, the host (existing paths, the
    stack of mounts, the containers by name) and the trace. *)
Record World := mkWorld {
  sessions : gmap string Session;
  sessionsMu : bool;
  rng : RngState;
  clock : Z;
  reads : nat;
  files : gset string;
  mounts : list string;
  containers : gset string;
  trace : list Event
}.

(** How a goroutine's run of a piece of code ends: it returns, it parks
    for ever on [sessionsMu], or the runtime aborts.  Every [Unlock] of
    the gateway is made by the goroutine that made the [Lock] before it,
    so a goroutine that waits for the mutex while holding it is never
    woken up. *)
Inductive Outcome (A : Type) :=
| Ret (a : A) (w : World)
| Blocked (w : World)
| Panicked (w : World).

Arguments Ret {A} a w.
Arguments Blocked {A} w.
Arguments Panicked {A} w.

(** The world an outcome ends in. *)
Definition final {A} (o : Outcome A) : World :=
  match o with
  | Ret _ w => w
  | Blocked w => w
  | Panicked w => w
  end.

Definition M (A : Type) : Type := World -> Outcome A.

Definition ret {A} (a : A) : M A := fun w => Ret a w.

Definition bind {A B} (m : M A) (k : A -> M B) : M B :=
  fun w => match m w with
           | Ret a w' => k a w'
           | Blocked w' => Blocked w'
           | Panicked w' => Panicked w'
           end.

Notation "'let*' x ':=' m 'in' k" := (bind m (fun x => k))
  (at level 10, x name, m at level 100, k at level 200).
Notation "m ';;' k" := (bind m (fun _ => k))
  (at level 100, k at level 200, right associativity).

(** *** The registry *)

Definition set_sessions (f : gmap string Session -> gmap string Session)
  (w : World) : World :=
  {| sessions := f (sessions w); sessionsMu := sessionsMu w; rng := rng w;
     clock := clock w; reads := reads w; files := files w;
     mounts := mounts w; containers := containers w; trace := trace w |}.

Definition set_mu (b : bool) (w : World) : World :=
  {| sessions := sessions w; sessionsMu := b; rng := rng w;
     clock := clock w; reads := reads w; files := files w;
     mounts := mounts w; containers := containers w; trace := trace w |}.

(** [sessionsMu.Lock()]. *)
Definition Lock : M unit :=
  fun w => if sessionsMu w then Blocked w else Ret tt (set_mu true w).

(** [sessionsMu.Unlock()]; unlocking a mutex that is not locked is a
    fatal error of the runtime. *)
Definition Unlock : M unit :=
  fun w => if sessionsMu w then Ret tt (set_mu false w) else Panicked w.

(** [s, ok := sessions[id]]. *)
Definition get (id : string) : M (option Session) :=
  fun w => Ret (sessions w !! id) w.

(** [sessions[id] = s]. *)
Definition put (id : string) (s : Session) : M unit :=
  fun w => Ret tt (set_sessions (insert id s) w).

(** [delete(sessions, id)]. *)
Definition del (id : string) : M unit :=
  fun w => Ret tt (set_sessions (delete id) w).

(** *** The clock *)

Definition set_clock (t : Z) (w : World) : World :=
  {| sessions := sessions w; sessionsMu := sessionsMu w; rng := rng w;
     clock := t; reads := S (reads w); files := files w;
     mounts := mounts w; containers := containers w; trace := trace w |}.

(** [time.Now()]: the monotonic clock has moved on by what the host says
    has elapsed since the last reading. *)
Definition time_Now : M Time :=
  fun w =>
    let t := mkTime (env_wall E (reads w))
                    (clock w + Z.of_N (env_elapse E (reads w))) in
    Ret t (set_clock (mono t) w).

(** [time.Sleep(d)]: at least [d] passes. *)
Definition time_Sleep (d : Z) : M unit :=
  fun w => Ret tt (set_clock (clock w + d + Z.of_N (env_elapse E (reads w))) w).

(** [time.Since(t)], in nanoseconds. *)
Definition time_Since (t : Time) : M Z :=
  let* now := time_Now in ret (mono now - mono t).

(** *** The random generator *)

Definition set_rng (g : RngState) (w : World) : World :=
  {| sessions := sessions w; sessionsMu := sessionsMu w; rng := g;
     clock := clock w; reads := reads w; files := files w;
     mounts := mounts w; containers := containers w; trace := trace w |}.

Definition rand_Seed (seed : Z) : M unit :=
  fun w => Ret tt (set_rng (Seed seed) w).

(** [rand.Intn(n)]; it panics when [n <= 0]. *)
Definition rand_Intn (n : Z) : M Z :=
  fun w =>
    if n <=? 0 then Panicked w
    else let '(v, g) := Intn n (rng w) in Ret v (set_rng g w).

(** *** The host *)

Definition set_host (fs : gset string) (ms : list string) (cs : gset string)
  (w : World) : World :=
  {| sessions := sessions w; sessionsMu := sessionsMu w; rng := rng w;
     clock := clock w; reads := reads w; files := fs;
     mounts := ms; containers := cs; trace := trace w |}.

Definition record (e : Event) (w : World) : World :=
  {| sessions := sessions w; sessionsMu := sessionsMu w; rng := rng w;
     clock := clock w; reads := reads w; files := files w;
     mounts := mounts w; containers := containers w;
     trace := trace w ++ [e] |}.

(** Unmounting takes the topmost mount off a mountpoint. *)
Fixpoint unmount (merged : string) (ms : list string) : list string :=
  match ms with
  | [] => []
  | m :: rest => if String.eqb m merged then rest else m :: unmount merged rest
  end.

(** What a command that goes through does to the host. *)
Definition effect (c : Cmd) (w : World) : World :=
  match c with
  | MkdirAll path =>
      set_host (files w ∪ list_to_set (filepath.chain path)) (mounts w)
               (containers w) w
  | Mount _ _ _ merged =>
      set_host (files w) (merged :: mounts w) (containers w) w
  | DockerRun _ name _ =>
      set_host (files w) (mounts w) (containers w ∪ {[name]}) w
  | Umount merged =>
      set_host (files w) (unmount merged (mounts w)) (containers w) w
  | DockerRm name =>
      set_host (files w) (mounts w) (containers w ∖ {[name]}) w
  | RemoveAll path =>
      set_host (filter (fun q => filepath.under path q = false) (files w))
               (mounts w) (containers w) w
  end.

(** A command whose error the gateway looks at: the host decides whether
    it fails; a failed command leaves the host as it was. *)
Definition run (c : Cmd) : M (option string) :=
  fun w =>
    let err := env_fail E (trace w) c in
    Ret err (record (Ran c err)
               (match err with None => effect c w | Some _ => w end)).

(** A command whose result the gateway drops ([exec.Command(...).Run()]
    and [os.RemoveAll] as statements): it is taken at its effect. *)
Definition fire (c : Cmd) : M unit :=
  fun w => Ret tt (record (Fired c) (effect c w)).

Definition log_Printf (line : string) : M unit :=
  fun w => Ret tt (record (Logged line) w).

(** ** The allocator *)

(** The loop of [randSeq]: one draw per rune; indexing [letters] out of
    range would panic. *)
Fixpoint randSeq_loop (n : nat) : M string :=
  match n with
  | O => ret ""
  | S k =>
      let* i := rand_Intn (Z.of_nat (length letters)) in
      match letters !! Z.to_nat i with
      | None => fun w => Panicked w
      | Some c => let* rest := randSeq_loop k in ret (String c rest)
      end
  end.

(** randSeq returns a random alphanumeric string; it reseeds the
    generator from the wall clock first. *)
Definition randSeq (n : nat) : M string :=
  let* now := time_Now in
  rand_Seed (wall now) ;;
  randSeq_loop n.

(** randomPort returns a random TCP port in range 10000-15000. *)
Definition randomPort : M Z :=
  let* k := rand_Intn 5000 in ret (10000 + k).

(** ** Teardown *)

(** stopSession kills the container, unmounts overlay, and cleans up. *)
Definition stopSession (sessionID : string) : M unit :=
  Lock ;;
  (let* found := get sessionID in
   match found with
   | Some s =>
       fire (DockerRm (ContainerName s)) ;;
       let merged := filepath.Join [OverlayDir s; "merged"] in
       fire (Umount merged) ;;
       (if Ephemeral s then fire (RemoveAll (OverlayDir s)) else ret tt) ;;
       del sessionID
   | None => ret tt
   end) ;;
  Unlock.

(** ** Provisioning *)

(** The loop over [upper], [work], [merged]: it stops at the first
    directory that cannot be made. *)
Fixpoint mkdirs (ds : list string) : M bool :=
  match ds with
  | [] => ret true
  | d :: rest =>
      let* err := run (MkdirAll d) in
      match err with
      | Some _ => ret false
      | None => mkdirs rest
      end
  end.

(** The choice of the overlay directory: a fresh guest directory for
    the setting [ephemeral], the configured path otherwise. *)
Definition chooseOverlay (overlaySetting : string) : M (string * bool) :=
  if String.eqb overlaySetting "ephemeral" then
    let* g := randSeq 6 in
    ret (filepath.Join ["/srv/overlays"; "guest-" +:+ g], true)
  else ret (overlaySetting, false).

(** login authenticates a user, mounts overlayfs, and starts a desktop
    container. *)
Definition login (r : Request) : M Response :=
  match Form r with
  | None => ret (HttpError "Invalid form" 400)
  | Some form =>
    let username := FormValue form "username" in
    let password := FormValue form "password" in
    let confPath := filepath.Join [userConfDir; username +:+ ".conf"] in
    match conf_files E confPath with
    | NoFile => ret (HttpError "Invalid user" 401)
    | Unreadable => ret (HttpError "Config error" 500)
    | Conf cfgPassword overlaySetting =>
      if negb (String.eqb cfgPassword password)
      then ret (HttpError "Invalid credentials" 401)
      else
        let* chosen := chooseOverlay overlaySetting in
        let overlayDir := fst chosen in
        let ephemeral := snd chosen in
        let upper := filepath.Join [overlayDir; "upper"] in
        let work := filepath.Join [overlayDir; "work"] in
        let merged := filepath.Join [overlayDir; "merged"] in
        let* made := mkdirs [upper; work; merged] in
        if negb made then ret (HttpError "Failed to create overlay dirs" 500)
        else
          let* mounted := run (Mount baseOverlay upper work merged) in
          match mounted with
          | Some err => ret (HttpError ("Failed to mount overlay: " +:+ err) 500)
          | None =>
            let* sessionID := randSeq 8 in
            let* port := randomPort in
            let containerName := "desktop-" +:+ username +:+ "-" +:+ sessionID in
            let* started := run (DockerRun port containerName merged) in
            match started with
            | Some err =>
                fire (Umount merged) ;;
                ret (HttpError ("Failed to start container: " +:+ err) 500)
            | None =>
                Lock ;;
                (let* now := time_Now in
                 put sessionID
                   {| Username := username; ContainerName := containerName;
                      OverlayDir := overlayDir; Port := port;
                      LastActive := now; Ephemeral := ephemeral |}) ;;
                Unlock ;;
                ret (Redirect ("/session/" +:+ sessionID) 302)
            end
          end
    end
  end.

(** ** Activity *)

(** The block that [session], [proxyHandler] and [ping] each run under
    the mutex: look the session up and, when it is there, store it back
    with [LastActive] set to now. *)
Definition lookupTouch (sessionID : string) : M (option Session) :=
  let* found := get sessionID in
  match found with
  | Some s =>
      let* now := time_Now in
      let s' := touch s now in
      put sessionID s' ;; ret (Some s')
  | None => ret None
  end.

(** session serves the HTML wrapper page for the VNC session. *)
Definition session (r : Request) : M Response :=
  let sessionID := strings.TrimPrefix (Path r) "/session/" in
  Lock ;;
  let* found := lookupTouch sessionID in
  Unlock ;;
  match found with
  | None => ret (HttpError "Session not found" 404)
  | Some _ => ret (Render "session.html" (Some sessionID))
  end.

(** proxyHandler forwards requests into the noVNC server inside the
    container. *)
Definition proxyHandler (r : Request) : M Response :=
  let parts := strings.SplitN2 (strings.TrimPrefix (Path r) "/proxy/") "/" in
  if (length parts <? 2)%nat then ret (HttpError "Bad proxy path" 400)
  else
    let sessionID := nth 0 parts "" in
    let rest := nth 1 parts "" in
    Lock ;;
    let* found := lookupTouch sessionID in
    Unlock ;;
    match found with
    | None => ret (HttpError "Session not found" 404)
    | Some s => ret (Forward "127.0.0.1" (Port s) ("/" +:+ rest))
    end.

(** ping updates session activity timestamp (called by JS heartbeat). *)
Definition ping (r : Request) : M Response :=
  let sessionID := strings.TrimPrefix (Path r) "/ping/" in
  Lock ;;
  lookupTouch sessionID ;;
  Unlock ;;
  ret (Status 200).

(** logout stops a session explicitly. *)
Definition logout (r : Request) : M Response :=
  let sessionID := strings.TrimPrefix (Path r) "/logout/" in
  stopSession sessionID ;;
  ret (Redirect "/" 302).

(** ** The idle reaper *)

(** [for id, s := range sessions]: the keys are visited in [order], the
    order this run of the loop happens to take; a key deleted before it
    is reached is not visited. *)
Fixpoint range_sessions (order : list string)
  (body : string -> Session -> M unit) : M unit :=
  match order with
  | [] => ret tt
  | id :: rest =>
      let* found := get id in
      match found with
      | Some s => body id s ;; range_sessions rest body
      | None => range_sessions rest body
      end
  end.

(** The body of the loop: a session that has been idle for longer than
    [sessionExpiry] is stopped. *)
Definition reap (id : string) (s : Session) : M unit :=
  let* idle := time_Since (LastActive s) in
  if idle >? sessionExpiry then
    log_Printf ("Session " +:+ id +:+ " idle > 10m0s, killing...") ;;
    stopSession id
  else ret tt.

(** One turn of the loop of [cleanupLoop]. *)
Definition cleanupScan (order : list string) : M unit :=
  time_Sleep (1 * Minute) ;;
  Lock ;;
  range_sessions order reap ;;
  Unlock.

(** cleanupLoop checks sessions every minute and kills idle ones: its
    first turns, one per visiting order given. *)
Fixpoint cleanupLoop (orders : list (list string)) : M unit :=
  match orders with
  | [] => ret tt
  | order :: rest => cleanupScan order ;; cleanupLoop rest
  end.

(** ** Runs of the gateway *)

(** What can happen at the gateway: a request to one of its routes, or
    a turn of the reaper. *)
Inductive Call :=
| CallLogin (r : Request)
| CallSession (r : Request)
| CallProxy (r : Request)
| CallPing (r : Request)
| CallLogout (r : Request)
| CallScan (order : list string).

Definition serve (c : Call) : M unit :=
  match c with
  | CallLogin r => login r ;; ret tt
  | CallSession r => session r ;; ret tt
  | CallProxy r => proxyHandler r ;; ret tt
  | CallPing r => ping r ;; ret tt
  | CallLogout r => logout r ;; ret tt
  | CallScan order => cleanupScan order
  end.

(** The world a call leaves behind, whether its goroutine has returned
    or is parked. *)
Definition after (c : Call) (w : World) : World := final (serve c w).

Fixpoint after_all (cs : list Call) (w : World) : World :=
  match cs with
  | [] => w
  | c :: rest => after_all rest (after c w)
  end.

(** The gateway starts with an empty registry and a free mutex. *)
Definition initial (w : World) : Prop :=
  sessions w = ∅ /\ sessionsMu w = false.

(** The worlds the gateway reaches by serving calls one after the other. *)
Inductive reachable : World -> Prop :=
| reach_init w : initial w -> reachable w
| reach_serve w c : reachable w -> reachable (after c w).

End Gateway.

Arguments Ret {R A} a w.
Arguments Blocked {R A} w.
Arguments Panicked {R A} w.
Arguments final {R A} o.

(** What the loop of [randSeq] computes from the state of the
    generator: the characters drawn and the state it leaves.  (The
    default of [nth] is never used: [Intn] stays below the length of
    [letters].) *)
Fixpoint draws {R : Rand} (n : nat) (g : RngState) : string * RngState :=
  match n with
  | O => ("", g)
  | S k =>
      let (i, g1) := Intn (Z.of_nat (length letters)) g in
      let (rest, g2) := draws k g1 in
      (String (nth (Z.to_nat i) letters "a"%char) rest, g2)
  end.

(** The session id and the port of a login whose [randSeq(8)] seeded
    the generator with [seed]. *)
Definition id_of_seed {R : Rand} (seed : Z) : string :=
  fst (draws 8 (Seed seed)).

Definition port_of_seed {R : Rand} (seed : Z) : Z :=
  10000 + fst (Intn 5000 (snd (draws 8 (Seed seed)))).

(** The side effects of one teardown: container removal, unmount of the
    merged mountpoint and, for a guest session, deletion of its
    storage. *)
Definition teardown (s : Session) : list Event :=
  [Fired (DockerRm (ContainerName s));
   Fired (Umount (filepath.Join [OverlayDir s; "merged"]))]
  ++ (if Ephemeral s then [Fired (RemoveAll (OverlayDir s))] else []).

(** The world after the teardown of the live session [s] registered
    under [id]. *)
Definition torn_down {R : Rand} (id : string) (s : Session) (w : World) : World :=
  {| sessions := delete id (sessions w);
     sessionsMu := false;
     rng := rng w; clock := clock w; reads := reads w;
     files := if Ephemeral s
              then filter (fun q => filepath.under (OverlayDir s) q = false) (files w)
              else files w;
     mounts := unmount (filepath.Join [OverlayDir s; "merged"]) (mounts w);
     containers := containers w ∖ {[ContainerName s]};
     trace := trace w ++ teardown s |}.

(** No session of the registry was active after the last reading of the
    clock. *)
Definition timely {R : Rand} (w : World) : Prop :=
  forall id s, sessions w !! id = Some s -> mono (LastActive s) <= clock w.

(** From [w] to [w'] the clock has not gone back, and every session of
    [w'] is a session of [w] as it was or was last active at a reading
    taken in between. *)
Definition refreshes {R : Rand} (w w' : World) : Prop :=
  clock w <= clock w'
  /\ forall id s', sessions w' !! id = Some s' ->
        sessions w !! id = Some s'
        \/ clock w <= mono (LastActive s') <= clock w'.

(** The world in which the loop of the reaper starts: the minute has
    been slept and the mutex taken. *)
Definition slept {R : Rand} (E : Env) (w : World) : World :=
  {| sessions := sessions w; sessionsMu := true; rng := rng w;
     clock := clock w + 1 * Minute + Z.of_N (env_elapse E (reads w));
     reads := S (reads w); files := files w; mounts := mounts w;
     containers := containers w; trace := trace w |}.

(** The reading of the clock a call of [time.Now] in [w] gives. *)
Definition next_reading {R : Rand} (E : Env) (w : World) : Z :=
  clock w + Z.of_N (env_elapse E (reads w)).

(** ** A sample host

    A random source that counts: seeded with [s] it draws [s mod n],
    [(s+1) mod n], ...; a host with two persistent users and the guest
    account. *)

Definition counter_rand : Rand :=
  {| RngState := Z;
     Seed := fun s => s;
     Intn := fun n g => (g mod n, g + 1);
     Intn_range := fun n g H => Z.mod_pos_bound g n H |}.

Definition sample_confs (path : string) : ConfFile :=
  if String.eqb path "users/alice.conf" then Conf "rabbit" "/srv/overlays/alice"
  else if String.eqb path "users/bob.conf" then Conf "builder" "/srv/overlays/bob"
  else if String.eqb path "users/guest.conf" then Conf "guest" "ephemeral"
  else NoFile.

(** Ten milliseconds pass between two readings of the clock; the wall
    clock shows [wall_at k] at the k-th reading. *)
Definition sample_env (wall_at : nat -> Z) (fail : list Event -> Cmd -> option string)
  : Env :=
  {| conf_files := sample_confs;
     env_elapse := fun _ => 10000000%N;
     env_wall := wall_at;
     env_fail := fail |}.

Definition never_fails : list Event -> Cmd -> option string :=
  fun _ _ => None.

(** The container runtime refuses every launch. *)
Definition docker_down : list Event -> Cmd -> option string :=
  fun _ c => match c with
             | DockerRun _ _ _ => Some "exit status 125"
             | _ => None
             end.

Definition empty_world : World (R := counter_rand) :=
  mkWorld (R := counter_rand) ∅ false 1 0 O ∅ [] ∅ [].

Definition form_of (user pass : string) : Request :=
  {| Path := "/login"; Form := Some [("username", user); ("password", pass)] |}.

Definition get_path (path : string) : Request :=
  {| Path := path; Form := Some [] |}.

(** The wall clock shows [0] at the first two readings and [t] from
    then on. *)
Definition wall_then (t : Z) : nat -> Z :=
  fun k => if (k <? 2)%nat then 0 else t.

(** The sample host on which every command succeeds. *)
Definition host_at (t : Z) : Env := sample_env (wall_then t) never_fails.

(** The sample host on which no container can be launched. *)
Definition host_without_docker : Env := sample_env (wall_then 0) docker_down.

Definition alice_req : Request := form_of "alice" "rabbit".
Definition bob_req : Request := form_of "bob" "builder".
Definition guest_req : Request := form_of "guest" "guest".

(** The world after alice has logged in on the sample host at wall-clock
    time [0]: one live session, [abcdefgh], on port [10008]. *)
Definition alice_world : World (R := counter_rand) :=
  final (login (host_at 0) alice_req empty_world).

(** The container [name] has exited on its own; launched with [--rm],
    it is gone from the host.  The gateway has not noticed. *)
Definition container_gone (name : string) (w : World (R := counter_rand))
  : World (R := counter_rand) :=
  set_host (files w) (mounts w) (containers w ∖ {[name]}) w.

Definition alice_gone_world : World (R := counter_rand) :=
  container_gone "desktop-alice-abcdefgh" alice_world.

(** Bob logs in when the wall clock shows [5000], after alice's
    container has exited. *)
Definition same_port_world : World (R := counter_rand) :=
  final (login (host_at 5000) bob_req alice_gone_world).

(** Bob logs in when the wall clock shows [36], while alice is logged
    in. *)
Definition same_id_world : World (R := counter_rand) :=
  final (login (host_at 36) bob_req alice_world).

(** Alice logs in a second time, when the wall clock shows [7]. *)
Definition alice_twice_world : World (R := counter_rand) :=
  final (login (host_at 7) alice_req alice_world).

(** The guest has logged in on the empty sample host. *)
Definition guest_world : World (R := counter_rand) :=
  final (login (host_at 0) guest_req empty_world).

(** Alice has logged in and does nothing more; the reaper takes its
    first ten turns. *)
Definition parked_world : World (R := counter_rand) :=
  final (cleanupLoop (host_at 0) (replicate 10 ["abcdefgh"]) alice_world).

(** ** Further notions *)

(** Every character of [s] is one of [letters]. *)
Definition alphabetic (s : string) : bool :=
  forallb (fun c => existsb (Ascii.eqb c) letters) (list_ascii_of_string s).

(** The world after the session [s], registered under [id], has been
    touched under the mutex and the mutex released. *)
Definition touched {R : Rand} (E : Env) (id : string) (s : Session) (w : World)
  : World :=
  {| sessions :=
       <[id := touch s (mkTime (env_wall E (reads w)) (next_reading E w))]>
         (sessions w);
     sessionsMu := false;
     rng := rng w; clock := next_reading E w; reads := S (reads w);
     files := files w; mounts := mounts w; containers := containers w;
     trace := trace w |}.

(** Two sessions that differ at most in [LastActive]. *)
Definition same_identity (s s' : Session) : Prop :=
  Username s' = Username s /\ ContainerName s' = ContainerName s
  /\ OverlayDir s' = OverlayDir s /\ Port s' = Port s
  /\ Ephemeral s' = Ephemeral s.

(** What [login] makes of a session and its id. *)
Definition well_formed (id : string) (s : Session) : Prop :=
  String.length id = 8%nat
  /\ alphabetic id = true
  /\ ContainerName s = "desktop-" +:+ Username s +:+ "-" +:+ id
  /\ 10000 <= Port s < 15000
  /\ (Ephemeral s = true ->
      exists g, String.length g = 6%nat /\ alphabetic g = true
                /\ OverlayDir s = "/srv/overlays/guest-" +:+ g).

(** Every session of [w'] is a session of [w] up to [LastActive], or a
    session as [login] makes them. *)
Definition shapes {R : Rand} (w w' : World) : Prop :=
  forall id s', sessions w' !! id = Some s' ->
    (exists s, sessions w !! id = Some s /\ same_identity s s')
    \/ well_formed id s'.

(** The time the host lets pass over the [n] readings of the clock that
    follow the first [from]. *)
Fixpoint elapse_sum (E : Env) (from n : nat) : Z :=
  match n with
  | O => 0
  | S k => Z.of_N (env_elapse E from) + elapse_sum E (S from) k
  end.

(** The latest the last reading of the clock in a turn of the reaper
    over [n] keys can be. *)
Definition scan_deadline {R : Rand} (E : Env) (w : World) (n : nat) : Z :=
  clock w + 1 * Minute + elapse_sum E (reads w) (S n).

Definition is_login (c : Call) : bool :=
  match c with
  | CallLogin _ => true
  | _ => false
  end.

Definition is_logout (c : Call) : bool :=
  match c with
  | CallLogout _ => true
  | _ => false
  end.

(** The mount of the overlay is refused on the sample host. *)
Definition mount_down : list Event -> Cmd -> option string :=
  fun _ c => match c with
             | Mount _ _ _ _ => Some "exit status 32"
             | _ => None
             end.

(** Alice's [work] directory cannot be made on the sample host. *)
Definition work_dir_down : list Event -> Cmd -> option string :=
  fun _ c => match c with
             | MkdirAll d =>
                 if String.eqb d "/srv/overlays/alice/work"
                 then Some "permission denied" else None
             | _ => None
             end.

Definition host_without_mount : Env := sample_env (wall_then 0) mount_down.
Definition host_without_work_dir : Env := sample_env (wall_then 0) work_dir_down.

(** Alice's session as her login registered it. *)
Definition alice_session : Session :=
  {| Username := "alice"; ContainerName := "desktop-alice-abcdefgh";
     OverlayDir := "/srv/overlays/alice"; Port := 10008;
     LastActive := {| wall := 0; mono := 20000000 |};
     Ephemeral := false |}.

(** Bob logs in after the reaper has parked. *)
Definition bob_parked_world : World (R := counter_rand) :=
  final (login (host_at 0) bob_req parked_world).

(** * Properties *)

(** ** Paths *)

Lemma append_nil (s : string) : "" +:+ s = s.
Proof. reflexivity. Qed.

Lemma append_cons c (a b : string) : String c a +:+ b = String c (a +:+ b).
Proof. reflexivity. Qed.

Lemma append_assoc (a b c : string) : (a +:+ b) +:+ c = a +:+ b +:+ c.
Proof.
  induction a as [| x a IH]; [reflexivity |].
  rewrite !append_cons. now rewrite IH.
Qed.

Lemma Split_no_sep sep g :
  strings.no_sep sep g = true -> strings.Split sep g = [g].
Proof.
  induction g as [| c g IH]; cbn [strings.no_sep strings.Split]; [reflexivity |].
  intros H. apply andb_prop in H as [Hc Hg].
  apply negb_true_iff in Hc. rewrite Hc, (IH Hg). reflexivity.
Qed.

Lemma Split_app sep g rest :
  strings.no_sep sep g = true ->
  strings.Split sep (g +:+ String sep rest) = g :: strings.Split sep rest.
Proof.
  induction g as [| c g IH]; cbn [strings.no_sep].
  - intros _. rewrite append_nil. cbn [strings.Split].
    now rewrite Ascii.eqb_refl.
  - intros H. apply andb_prop in H as [Hc Hg].
    apply negb_true_iff in Hc. rewrite append_cons. cbn [strings.Split].
    rewrite Hc, (IH Hg). reflexivity.
Qed.

Lemma HasPrefix_append (p s : string) : strings.HasPrefix (p +:+ s) p = true.
Proof.
  induction p as [| c p IH]; [reflexivity |].
  rewrite append_cons. cbn [strings.HasPrefix].
  now rewrite Ascii.eqb_refl, IH.
Qed.

Lemma under_self dir : filepath.under dir dir = true.
Proof. unfold filepath.under. now rewrite String.eqb_refl. Qed.

Lemma under_child dir leaf : filepath.under dir (dir +:+ "/" +:+ leaf) = true.
Proof.
  unfold filepath.under. rewrite <- (append_assoc dir "/" leaf).
  rewrite HasPrefix_append. apply orb_true_r.
Qed.

Lemma clean_step_empty rooted out : filepath.clean_step rooted out "" = out.
Proof. reflexivity. Qed.

Lemma clean_step_keep rooted out comp :
  String.eqb comp "" || String.eqb comp "." || String.eqb comp ".." = false ->
  filepath.clean_step rooted out comp = comp :: out.
Proof.
  intros H. apply orb_false_elim in H as [H Hdd].
  unfold filepath.clean_step. now rewrite H, Hdd.
Qed.

(** The directory of a guest session is the storage root followed by
    [guest-] and the token. *)
Lemma Join_guest g :
  strings.no_sep "/" g = true ->
  filepath.Join ["/srv/overlays"; "guest-" +:+ g] = "/srv/overlays/guest-" +:+ g.
Proof.
  intros Hg. cbn [filepath.Join String.eqb Ascii.eqb Bool.eqb strings.Join].
  rewrite !append_cons, !append_nil.
  unfold filepath.Clean. cbn [Ascii.eqb Bool.eqb strings.Split].
  rewrite (Split_no_sep _ _ Hg).
  cbn [fold_left]. rewrite clean_step_empty.
  rewrite !clean_step_keep by reflexivity.
  cbn [rev app strings.Join].
  rewrite !append_cons, !append_nil. reflexivity.
Qed.

(** Below the directory of a guest session, joining a plain component
    appends it. *)
Lemma Join_guest_leaf g leaf :
  strings.no_sep "/" g = true -> filepath.plain leaf = true ->
  filepath.Join ["/srv/overlays/guest-" +:+ g; leaf]
  = ("/srv/overlays/guest-" +:+ g) +:+ "/" +:+ leaf.
Proof.
  intros Hg Hleaf. apply andb_prop in Hleaf as [Hsep Hplain].
  apply negb_true_iff in Hplain.
  rewrite !append_cons, !append_nil.
  cbn [filepath.Join String.eqb Ascii.eqb Bool.eqb strings.Join].
  rewrite !append_cons.
  unfold filepath.Clean. cbn [Ascii.eqb Bool.eqb strings.Split].
  rewrite ?append_nil.
  rewrite (Split_app _ _ _ Hg), (Split_no_sep _ _ Hsep).
  cbn [fold_left]. rewrite clean_step_empty.
  rewrite !clean_step_keep by (reflexivity || exact Hplain).
  cbn [rev app strings.Join].
  rewrite ?append_cons, ?append_nil, ?append_assoc, ?append_cons, ?append_nil.
  reflexivity.
Qed.

Lemma under_guest_leaf g leaf :
  strings.no_sep "/" g = true -> filepath.plain leaf = true ->
  filepath.under ("/srv/overlays/guest-" +:+ g)
    (filepath.Join ["/srv/overlays/guest-" +:+ g; leaf]) = true.
Proof.
  intros Hg Hleaf. rewrite (Join_guest_leaf g leaf Hg Hleaf).
  apply under_child.
Qed.

Arguments filepath.Join : simpl never.
Arguments filepath.under : simpl never.
Arguments sessionExpiry : simpl never.
Arguments Minute : simpl never.

Section Properties.

Context {R : Rand}.
Implicit Types (E : Env) (w : World) (r : Request) (s : Session).

(** ** The monad *)

Lemma bind_Ret {A B} (m : M A) (k : A -> M B) w a w' :
  m w = Ret a w' -> bind m k w = k a w'.
Proof. intros H. unfold bind. now rewrite H. Qed.

Lemma bind_Blocked {A B} (m : M A) (k : A -> M B) w w' :
  m w = Blocked w' -> bind m k w = Blocked w'.
Proof. intros H. unfold bind. now rewrite H. Qed.

Lemma bind_inv {A B} (m : M A) (k : A -> M B) w b w' :
  bind m k w = Ret b w' -> exists a w1, m w = Ret a w1 /\ k a w1 = Ret b w'.
Proof.
  unfold bind. destruct (m w) as [a w1 | w1 | w1]; try discriminate.
  intros H. now exists a, w1.
Qed.

Lemma bind_ret {A B} (a : A) (k : A -> M B) w : bind (ret a) k w = k a w.
Proof. reflexivity. Qed.

Lemma bind_assoc {A B C} (m : M A) (f : A -> M B) (g : B -> M C) w :
  bind (bind m f) g w = bind m (fun a => bind (f a) g) w.
Proof. unfold bind. now destruct (m w). Qed.

Lemma bind_Lock {B} (k : unit -> M B) w :
  bind Lock k w = if sessionsMu w then Blocked w else k tt (set_mu true w).
Proof. unfold bind, Lock. now destruct (sessionsMu w). Qed.

Lemma bind_Unlock {B} (k : unit -> M B) w :
  bind Unlock k w = if sessionsMu w then k tt (set_mu false w) else Panicked w.
Proof. unfold bind, Unlock. now destruct (sessionsMu w). Qed.

Lemma bind_Now {B} E (k : Time -> M B) w :
  bind (time_Now E) k w
  = k (mkTime (env_wall E (reads w)) (next_reading E w))
      (set_clock (next_reading E w) w).
Proof. reflexivity. Qed.

Lemma bind_put {B} id s (k : unit -> M B) w :
  bind (put id s) k w = k tt (set_sessions (insert id s) w).
Proof. reflexivity. Qed.

Lemma bind_get {B} id (k : option Session -> M B) w :
  bind (get id) k w = k (sessions w !! id) w.
Proof. reflexivity. Qed.

Lemma bind_run {B} E c (k : option string -> M B) w :
  bind (run E c) k w
  = k (env_fail E (trace w) c)
      (record (Ran c (env_fail E (trace w) c))
         (match env_fail E (trace w) c with
          | None => effect c w
          | Some _ => w
          end)).
Proof. reflexivity. Qed.

Lemma bind_fire {B} c (k : unit -> M B) w :
  bind (fire c) k w = k tt (record (Fired c) (effect c w)).
Proof. reflexivity. Qed.

(** Unfolds the primitive operations of the monad. *)
Ltac run_ops :=
  repeat progress
    unfold bind, ret, Lock, Unlock, get, put, del, fire, run, log_Printf,
      time_Since, time_Now, time_Sleep, rand_Seed, record, effect,
      set_sessions, set_mu, set_clock, set_rng, set_host in *;
  cbn [sessions sessionsMu rng clock reads files mounts containers trace
       wall mono final] in *.

(** ** Malformed proxy paths *)

Lemma SplitN2_short (p : string) (sep : ascii) :
  (length (strings.SplitN2 p sep) < 2)%nat <-> strings.Cut sep p = None.
Proof.
  unfold strings.SplitN2. destruct (strings.Cut sep p) as [[a b] |]; simpl.
  - split; [lia | discriminate].
  - split; [reflexivity | lia].
Qed.

(** C10.  A proxy request whose path after [/proxy/] has fewer than two
    slash-separated segments is answered 400 with the world exactly as it
    was: nothing is forwarded, the mutex is not taken, no session is
    looked up or touched. *)
Theorem proxyHandler_malformed_untouched E r w :
  (length (strings.SplitN2 (strings.TrimPrefix (Path r) "/proxy/") "/") < 2)%nat ->
  proxyHandler E r w = Ret (HttpError "Bad proxy path" 400) w.
Proof.
  intros Hshort. unfold proxyHandler.
  apply Nat.ltb_lt in Hshort. now rewrite Hshort.
Qed.

(** ** Routing *)

(** C7.  For a proxy request whose path after [/proxy/] is
    [id/rest]: an id that is not in the registry is answered 404 and the
    world stays as it was; an id that is in the registry is forwarded to
    [127.0.0.1] on the session's port with path [/rest], and the session
    is stored back touched. *)
Theorem proxyHandler_routes E r w id rest :
  sessionsMu w = false ->
  strings.SplitN2 (strings.TrimPrefix (Path r) "/proxy/") "/" = [id; rest] ->
  match sessions w !! id with
  | None => proxyHandler E r w = Ret (HttpError "Session not found" 404) w
  | Some s =>
      exists now w',
        proxyHandler E r w = Ret (Forward "127.0.0.1" (Port s) ("/" +:+ rest)) w'
        /\ sessions w' = <[id := touch s now]> (sessions w)
        /\ clock w <= mono now
        /\ trace w' = trace w
  end.
Proof.
  intros Hmu Hparts. unfold proxyHandler. rewrite Hparts. simpl.
  destruct w as [ss mu g clk rd fs ms cs tr]. simpl in Hmu. subst mu.
  unfold bind, Lock, lookupTouch, bind, get. simpl.
  destruct (ss !! id) as [s |] eqn:Hlook; simpl.
  - eexists _, _. split; [reflexivity |]. simpl. repeat split. simpl. lia.
  - reflexivity.
Qed.

(** ** Teardown *)

Lemma stopSession_live w id s :
  sessionsMu w = false -> sessions w !! id = Some s ->
  stopSession id w = Ret tt (torn_down id s w).
Proof.
  intros Hmu Hlook.
  destruct w as [ss mu g clk rd fs ms cs tr]. simpl in *. subst mu.
  unfold stopSession, torn_down, teardown. run_ops. rewrite Hlook.
  destruct (Ephemeral s); run_ops; rewrite <- ?app_assoc; reflexivity.
Qed.

Lemma stopSession_absent w id :
  sessionsMu w = false -> sessions w !! id = None ->
  stopSession id w = Ret tt w.
Proof.
  intros Hmu Hlook.
  destruct w as [ss mu g clk rd fs ms cs tr]. simpl in *. subst mu.
  unfold stopSession, bind, Lock, get. simpl. now rewrite Hlook.
Qed.

Lemma stopSession_locked w id :
  sessionsMu w = true -> stopSession id w = Blocked w.
Proof.
  intros Hmu. unfold stopSession, bind, Lock. now rewrite Hmu.
Qed.

(** C4.  With the mutex free, two calls of [stopSession id] in a row
    both return; the first runs the teardown of the session (nothing for
    an id that is not live) and the second changes nothing at all, so
    the teardown side effects happen once; [id] is not in the registry
    after either call. *)
Theorem stopSession_idempotent w id :
  sessionsMu w = false ->
  exists w1,
    stopSession id w = Ret tt w1
    /\ stopSession id w1 = Ret tt w1
    /\ sessions w1 !! id = None
    /\ trace w1 = trace w ++ match sessions w !! id with
                             | Some s => teardown s
                             | None => []
                             end.
Proof.
  intros Hmu. destruct (sessions w !! id) as [s |] eqn:Hlook.
  - exists (torn_down id s w). split; [now apply stopSession_live |].
    assert (Hgone : sessions (torn_down id s w) !! id = None)
      by (apply lookup_delete_eq).
    split; [| split]; [| exact Hgone | reflexivity].
    now apply stopSession_absent.
  - exists w. rewrite app_nil_r. repeat split; auto using stopSession_absent.
Qed.

(** ** The idle reaper *)

Lemma cleanupScan_unfold E order :
  cleanupScan E order
  = bind (time_Sleep E (1 * Minute)) (fun _ =>
      bind Lock (fun _ =>
        bind (range_sessions order (reap E)) (fun _ => Unlock))).
Proof. reflexivity. Qed.

Lemma range_sessions_absent order id body w :
  sessions w !! id = None ->
  range_sessions (id :: order) body w = range_sessions order body w.
Proof. intros H. simpl. unfold bind, get. now rewrite H. Qed.

Lemma range_sessions_live order id s body w :
  sessions w !! id = Some s ->
  range_sessions (id :: order) body w
  = bind (body id s) (fun _ => range_sessions order body) w.
Proof. intros H. simpl. unfold bind at 1. unfold get. now rewrite H. Qed.

Lemma reap_fresh E id s w :
  next_reading E w - mono (LastActive s) <= sessionExpiry ->
  reap E id s w = Ret tt (set_clock (next_reading E w) w).
Proof.
  intros H. unfold reap, next_reading in *. run_ops.
  destruct (_ >? _) eqn:Hcmp; [| reflexivity].
  rewrite Z.gtb_ltb in Hcmp. apply Z.ltb_lt in Hcmp. lia.
Qed.

Lemma reap_idle_locked E id s w :
  sessionsMu w = true ->
  sessionExpiry < next_reading E w - mono (LastActive s) ->
  reap E id s w
  = Blocked (record (Logged ("Session " +:+ id +:+ " idle > 10m0s, killing..."))
               (set_clock (next_reading E w) w)).
Proof.
  intros Hmu H. unfold reap, next_reading in *.
  unfold bind at 1. unfold time_Since, time_Now, bind at 1, ret.
  cbn [mono].
  destruct (_ >? _) eqn:Hcmp.
  - unfold bind, log_Printf. now rewrite stopSession_locked.
  - rewrite Z.gtb_ltb in Hcmp. apply Z.ltb_ge in Hcmp. lia.
Qed.

(** Under the mutex the loop never changes the registry, the mutex or
    the host, whatever it visits and however it ends. *)
Lemma reap_loop_frame E order : forall w,
  sessionsMu w = true ->
  let w' := final (range_sessions order (reap E) w) in
  sessions w' = sessions w /\ sessionsMu w' = true /\ clock w <= clock w'
  /\ files w' = files w /\ mounts w' = mounts w /\ containers w' = containers w.
Proof.
  induction order as [| id rest IH]; intros w Hmu; cbv zeta.
  - simpl. repeat split; auto. lia.
  - destruct (sessions w !! id) as [s |] eqn:Hlook.
    2: { rewrite range_sessions_absent by exact Hlook. now apply IH. }
    rewrite (range_sessions_live _ _ s) by exact Hlook.
    assert (Hpos : 0 <= Z.of_N (env_elapse E (reads w))) by lia.
    destruct (Z_le_gt_dec (next_reading E w - mono (LastActive s)) sessionExpiry)
      as [Hfresh | Hidle].
    + rewrite (bind_Ret _ _ _ _ _ (reap_fresh E id s w Hfresh)).
      specialize (IH (set_clock (next_reading E w) w) Hmu). cbv zeta in IH.
      destruct IH as (? & ? & Hclk & ? & ? & ?).
      unfold next_reading in *. simpl in Hclk.
      repeat split; auto. lia.
    + rewrite (bind_Blocked _ _ _ _ (reap_idle_locked E id s w Hmu ltac:(lia))).
      unfold next_reading. simpl. repeat split; auto. lia.
Qed.

(** The loop parks at the first session it finds idle, and it finds any
    session that was idle when the loop began. *)
Lemma reap_loop_blocks E order id s : forall w,
  sessionsMu w = true ->
  id ∈ order ->
  sessions w !! id = Some s ->
  clock w - mono (LastActive s) > sessionExpiry ->
  exists w', range_sessions order (reap E) w = Blocked w'.
Proof.
  induction order as [| id' rest IH]; intros w Hmu Hin Hlook Hidle.
  - inversion Hin.
  - assert (Hpos : 0 <= Z.of_N (env_elapse E (reads w))) by lia.
    destruct (sessions w !! id') as [s' |] eqn:Hlook'.
    2: { rewrite range_sessions_absent by exact Hlook'. apply IH; auto.
         apply elem_of_cons in Hin as [-> | Hin]; [congruence | exact Hin]. }
    rewrite (range_sessions_live _ _ s') by exact Hlook'.
    destruct (Z_le_gt_dec (next_reading E w - mono (LastActive s')) sessionExpiry)
      as [Hfresh | Hidle'].
    + rewrite (bind_Ret _ _ _ _ _ (reap_fresh E id' s' w Hfresh)).
      apply IH; auto.
      * apply elem_of_cons in Hin as [-> | Hin]; [| exact Hin].
        exfalso. rewrite Hlook in Hlook'. injection Hlook' as <-.
        unfold next_reading in Hfresh. lia.
      * unfold next_reading. simpl. lia.
    + rewrite (bind_Blocked _ _ _ _ (reap_idle_locked E id' s' w Hmu ltac:(lia))).
      eauto.
Qed.

Lemma cleanupScan_locked E order w :
  sessionsMu w = true ->
  cleanupScan E order w
  = Blocked (set_clock (clock w + 1 * Minute + Z.of_N (env_elapse E (reads w))) w).
Proof.
  intros Hmu. rewrite cleanupScan_unfold. unfold bind at 1. unfold time_Sleep.
  rewrite bind_Lock. cbn [sessionsMu set_clock]. now rewrite Hmu.
Qed.

Lemma cleanupScan_free E order w :
  sessionsMu w = false ->
  cleanupScan E order w
  = bind (range_sessions order (reap E)) (fun _ => Unlock) (slept E w).
Proof.
  intros Hmu. rewrite cleanupScan_unfold. unfold bind at 1. unfold time_Sleep.
  rewrite bind_Lock. cbn [sessionsMu set_clock]. now rewrite Hmu.
Qed.

(** However a turn of the reaper ends, the registry is what it was
    before the turn: the reaper removes no session. *)
Lemma cleanupScan_registry E order w :
  sessions (final (cleanupScan E order w)) = sessions w.
Proof.
  destruct (sessionsMu w) eqn:Hmu.
  - now rewrite cleanupScan_locked.
  - rewrite cleanupScan_free by exact Hmu.
    pose proof (reap_loop_frame E order (slept E w) eq_refl) as Hframe.
    cbv zeta in Hframe. destruct Hframe as (Hs & Hm & _).
    unfold bind.
    destruct (range_sessions order (reap E) (slept E w)) as [[] w2 | w2 | w2];
      cbn [final] in *; try exact Hs.
    unfold Unlock. rewrite Hm. exact Hs.
Qed.

(** A turn of the reaper that meets an idle session never ends: the
    reaper parks at the [Lock] of [stopSession], holding the mutex, with
    every session still registered and nothing torn down. *)
Lemma cleanupScan_blocks E order w id s :
  sessionsMu w = false ->
  id ∈ order ->
  sessions w !! id = Some s ->
  clock w - mono (LastActive s) > sessionExpiry ->
  exists w',
    cleanupScan E order w = Blocked w'
    /\ sessions w' = sessions w /\ sessionsMu w' = true
    /\ files w' = files w /\ mounts w' = mounts w
    /\ containers w' = containers w.
Proof.
  intros Hmu Hin Hlook Hidle.
  rewrite cleanupScan_free by exact Hmu.
  pose proof (reap_loop_frame E order (slept E w) eq_refl) as Hframe.
  destruct (reap_loop_blocks E order id s (slept E w) eq_refl Hin Hlook)
    as [w' Hw'].
  { cbn [slept clock]. assert (0 < Minute) by (unfold Minute; lia). lia. }
  rewrite Hw' in Hframe. cbv zeta in Hframe. cbn [final] in Hframe.
  exists w'. rewrite (bind_Blocked _ _ _ _ Hw'). cbn [slept] in Hframe. tauto.
Qed.

(** ** The allocator *)

Lemma letters_length : Z.of_nat (length letters) = 36.
Proof. reflexivity. Qed.

Lemma rand_Intn_spec n w :
  0 < n ->
  exists v g, rand_Intn n w = Ret v (set_rng g w) /\ 0 <= v < n.
Proof.
  intros Hn. unfold rand_Intn.
  destruct (n <=? 0) eqn:Hle; [apply Z.leb_le in Hle; lia |].
  pose proof (Intn_range n (rng w) Hn) as Hrange.
  destruct (Intn n (rng w)) as [v g]. now exists v, g.
Qed.

(** The loop of [randSeq] never panics: it returns the characters
    [draws] gives and moves nothing but the generator. *)
Lemma randSeq_loop_draws n : forall w,
  randSeq_loop n w
  = Ret (fst (draws n (rng w))) (set_rng (snd (draws n (rng w))) w).
Proof.
  induction n as [| k IH]; intros w.
  - unfold randSeq_loop, ret. now destruct w.
  - cbn [randSeq_loop draws].
    destruct (rand_Intn_spec (Z.of_nat (length letters)) w)
      as (v & g & Hv & Hrange); [rewrite letters_length; lia |].
    rewrite (bind_Ret _ _ _ _ _ Hv).
    assert (Hdraw : Intn (Z.of_nat (length letters)) (rng w) = (v, g)).
    { revert Hv. unfold rand_Intn.
      destruct (_ <=? 0); [discriminate |].
      destruct (Intn _ (rng w)) as [v' g']. intros H.
      now injection H as -> ->. }
    rewrite Hdraw.
    destruct (lookup_lt_is_Some_2 letters (Z.to_nat v)) as [c Hc].
    { rewrite letters_length in Hrange. change (length letters) with 36%nat. lia. }
    rewrite Hc, (nth_lookup_Some _ _ "a"%char _ Hc).
    rewrite (bind_Ret _ _ _ _ _ (IH (set_rng g w))).
    cbn [rng set_rng]. destruct (draws k g) as [rest g2]. reflexivity.
Qed.

Lemma draws_length n : forall g, String.length (fst (draws n g)) = n.
Proof.
  induction n as [| k IH]; intros g; cbn [draws]; [reflexivity |].
  destruct (Intn _ g) as [i g1]. specialize (IH g1).
  destruct (draws k g1) as [rest g2]. simpl in *. now rewrite IH.
Qed.

Lemma letters_no_slash k : Ascii.eqb (nth k letters "a"%char) "/" = false.
Proof.
  do 37 (destruct k as [| k]; [reflexivity |]). reflexivity.
Qed.

(** The characters [randSeq] draws are letters and digits: no slash. *)
Lemma draws_no_sep n : forall g, strings.no_sep "/" (fst (draws n g)) = true.
Proof.
  induction n as [| k IH]; intros g; cbn [draws]; [reflexivity |].
  destruct (Intn _ g) as [i g1]. specialize (IH g1).
  destruct (draws k g1) as [rest g2]. cbn [fst strings.no_sep] in *.
  now rewrite letters_no_slash, IH.
Qed.

Lemma bind_randSeq {B} E n (k : string -> M B) w :
  bind (randSeq E n) k w
  = let d := draws n (Seed (env_wall E (reads w))) in
    k (fst d) (set_rng (snd d) (set_clock (next_reading E w) w)).
Proof.
  unfold randSeq. rewrite bind_assoc.
  unfold bind at 1. unfold time_Now. rewrite bind_assoc.
  unfold bind at 1. unfold rand_Seed. cbn [wall mono].
  unfold bind. rewrite randSeq_loop_draws. reflexivity.
Qed.

(** [randomPort] never panics: it returns a port of [10000, 15000) and
    moves nothing but the generator. *)
Lemma bind_randomPort {B} (k : Z -> M B) w :
  bind randomPort k w
  = k (10000 + fst (Intn 5000 (rng w))) (set_rng (snd (Intn 5000 (rng w))) w).
Proof.
  unfold randomPort. rewrite bind_assoc. unfold bind, rand_Intn, ret.
  change (5000 <=? 0) with false. cbv iota.
  now destruct (Intn 5000 (rng w)).
Qed.

Lemma port_of_seed_range seed : 10000 <= port_of_seed seed < 15000.
Proof.
  unfold port_of_seed.
  pose proof (Intn_range 5000 (snd (draws 8 (Seed seed))) ltac:(lia)). lia.
Qed.

Lemma id_of_seed_length seed : String.length (id_of_seed seed) = 8%nat.
Proof. apply draws_length. Qed.

(** ** Symbolic execution of [login] *)

Ltac world_simpl :=
  repeat progress
    unfold record, effect, set_sessions, set_mu, set_clock, set_rng,
      set_host, next_reading in *;
  cbn [sessions sessionsMu rng clock reads files mounts containers trace
       wall mono final fst snd negb] in *.

Ltac exec_step :=
  match goal with
  | |- context [bind (randSeq ?E ?n) ?k ?w] =>
      rewrite (bind_randSeq E n k w); cbv zeta
  | |- context [bind randomPort ?k ?w] =>
      rewrite (bind_randomPort k w)
  | |- context [bind (run ?E ?c) ?k ?w] =>
      rewrite (bind_run E c k w);
      let Hfail := fresh "Hfail" in
      destruct (env_fail E (trace w) c) eqn:Hfail
  | |- context [bind (fire ?c) ?k ?w] =>
      rewrite (bind_fire c k w)
  | |- context [bind Lock ?k ?w] => rewrite (bind_Lock k w)
  | |- context [bind Unlock ?k ?w] => rewrite (bind_Unlock k w)
  | |- context [bind (time_Now ?E) ?k ?w] => rewrite (bind_Now E k w)
  | |- context [bind (put ?id ?s) ?k ?w] => rewrite (bind_put id s k w)
  | |- context [bind (get ?id) ?k ?w] => rewrite (bind_get id k w)
  end; world_simpl.

Ltac exec :=
  repeat (rewrite ?bind_assoc, ?bind_ret; world_simpl; try exec_step).

(** What a successful [login] leaves behind.  [k] is the reading of the
    clock at which [randSeq(8)] seeded the generator. *)
Lemma login_success E r w url code w' :
  login E r w = Ret (Redirect url code) w' ->
  exists form pw ov k now dir,
    let user := FormValue form "username" in
    let eph := String.eqb ov "ephemeral" in
    let id := id_of_seed (env_wall E k) in
    let port := port_of_seed (env_wall E k) in
    let name := "desktop-" +:+ user +:+ "-" +:+ id in
    Form r = Some form
    /\ conf_files E (filepath.Join [userConfDir; user +:+ ".conf"]) = Conf pw ov
    /\ pw = FormValue form "password"
    /\ sessionsMu w = false
    /\ url = "/session/" +:+ id /\ code = 302
    /\ (reads w <= k < reads w')%nat
    /\ (if eph
        then exists g, String.length g = 6%nat
                       /\ strings.no_sep "/" g = true
                       /\ dir = "/srv/overlays/guest-" +:+ g
        else dir = ov)
    /\ sessions w'
       = <[id := {| Username := user; ContainerName := name;
                    OverlayDir := dir; Port := port; LastActive := now;
                    Ephemeral := eph |}]> (sessions w)
    /\ sessionsMu w' = false
    /\ clock w <= mono now /\ clock w' = mono now
    /\ trace w'
       = trace w
         ++ [Ran (MkdirAll (filepath.Join [dir; "upper"])) None;
             Ran (MkdirAll (filepath.Join [dir; "work"])) None;
             Ran (MkdirAll (filepath.Join [dir; "merged"])) None;
             Ran (Mount baseOverlay (filepath.Join [dir; "upper"])
                    (filepath.Join [dir; "work"])
                    (filepath.Join [dir; "merged"])) None;
             Ran (DockerRun port name (filepath.Join [dir; "merged"])) None]
    /\ files w ⊆ files w'
    /\ mounts w' = filepath.Join [dir; "merged"] :: mounts w.
Proof.
  unfold login.
  destruct (Form r) as [form |] eqn:Hform; [| discriminate].
  destruct (conf_files E _) as [| | pw ov] eqn:Hconf; try discriminate.
  destruct (String.eqb pw (FormValue form "password")) eqn:Hpw;
    [| discriminate].
  apply String.eqb_eq in Hpw. cbn [negb].
  destruct w as [ss mu g0 clk rd fs ms cs tr].
  unfold chooseOverlay.
  destruct (String.eqb ov "ephemeral") eqn:Hov.
  - exec. cbn [mkdirs]. exec; try (unfold ret; discriminate).
    destruct mu; [discriminate |]. exec.
    unfold ret. intros H. injection H; intros; subst url code w'.
    eexists form, pw, ov, (S rd), _, _. cbv zeta. rewrite Hov.
    repeat (split; [first [reflexivity | eassumption | cbn [reads]; lia] |]).
    split; [eexists; split; [apply draws_length |];
            split; [apply draws_no_sep | apply Join_guest, draws_no_sep] |].
    repeat (split; [first [reflexivity | eassumption | cbn [mono]; lia] |]).
    cbn [trace files mounts].
    split; [now rewrite <- !app_assoc |].
    split; [do 3 apply union_subseteq_l'; reflexivity | reflexivity].
  - rewrite bind_ret. cbn [fst snd mkdirs]. exec;
      try (unfold ret; discriminate).
    destruct mu; [discriminate |]. exec.
    unfold ret. intros H. injection H; intros; subst url code w'.
    eexists form, pw, ov, rd, _, ov. cbv zeta. rewrite Hov.
    repeat (split; [first [reflexivity | eassumption | cbn [mono reads]; lia] |]).
    cbn [trace files mounts].
    split; [now rewrite <- !app_assoc |].
    split; [do 3 apply union_subseteq_l'; reflexivity | reflexivity].
Qed.

Lemma app_inv_self {A} (l x : list A) : l = l ++ x -> x = [].
Proof.
  intros H. apply (app_inv_head l). now rewrite app_nil_r.
Qed.

Lemma unmount_top merged ms : unmount merged (merged :: ms) = ms.
Proof. cbn [unmount]. now rewrite String.eqb_refl. Qed.

(** Settles a leaf of the execution of [login] in which no launch of a
    container has failed. *)
Ltac no_failed_launch Htr Hin :=
  unfold ret; cbn [final trace]; intros Htr Hin;
  rewrite <- ?app_assoc in Htr;
  first [ apply app_inv_self in Htr | apply app_inv_head in Htr ];
  subst; cbn [app] in Hin;
  repeat (apply elem_of_cons in Hin; destruct Hin as [Hin | Hin];
          [discriminate |]);
  apply elem_of_nil in Hin; contradiction.

(** C3.  Whenever a run of [login] contains a failed launch of the
    container, the run returns the 500 answer for it, the launch came
    right after the successful mount of the overlay and is followed
    by the unmount of the same merged mountpoint, which takes the mount
    off again, and the registry is what it was before the call. *)
Theorem login_rollback E r w new port name merged err :
  trace (final (login E r w)) = trace w ++ new ->
  Ran (DockerRun port name merged) (Some err) ∈ new ->
  exists w' upper work pre,
    login E r w = Ret (HttpError ("Failed to start container: " +:+ err) 500) w'
    /\ new = pre ++ [Ran (Mount baseOverlay upper work merged) None;
                     Ran (DockerRun port name merged) (Some err);
                     Fired (Umount merged)]
    /\ sessions w' = sessions w
    /\ mounts w' = mounts w.
Proof.
  unfold login.
  destruct (Form r) as [form |]; [| no_failed_launch Htr Hin].
  destruct (conf_files E _) as [| | pw ov];
    [no_failed_launch Htr Hin | no_failed_launch Htr Hin |].
  destruct (negb _); [no_failed_launch Htr Hin |].
  destruct w as [ss mu g0 clk rd fs ms cs tr].
  unfold chooseOverlay.
  destruct (String.eqb ov "ephemeral").
  - exec. cbn [mkdirs]. exec; try (no_failed_launch Htr Hin).
    + unfold ret; cbn [final trace]; intros Htr Hin.
      rewrite <- ?app_assoc in Htr. apply app_inv_head in Htr. subst new.
      cbn [app] in Hin.
      repeat (apply elem_of_cons in Hin; destruct Hin as [Hin | Hin];
              [try discriminate |]);
        [| apply elem_of_nil in Hin; contradiction].
      injection Hin as -> -> -> ->.
      eexists _, _, _, [_; _; _]. split; [reflexivity |].
      cbn [sessions mounts]. rewrite unmount_top. repeat split.
    + destruct mu; exec; no_failed_launch Htr Hin.
  - rewrite bind_ret. cbn [fst snd mkdirs].
    exec; try (no_failed_launch Htr Hin).
    + unfold ret; cbn [final trace]; intros Htr Hin.
      rewrite <- ?app_assoc in Htr. apply app_inv_head in Htr. subst new.
      cbn [app] in Hin.
      repeat (apply elem_of_cons in Hin; destruct Hin as [Hin | Hin];
              [try discriminate |]);
        [| apply elem_of_nil in Hin; contradiction].
      injection Hin as -> -> -> ->.
      eexists _, _, _, [_; _; _]. split; [reflexivity |].
      cbn [sessions mounts]. rewrite unmount_top. repeat split.
    + destruct mu; exec; no_failed_launch Htr Hin.
Qed.

(** ** Activity *)

Lemma refreshes_refl w : refreshes w w.
Proof. split; [lia | auto]. Qed.

Lemma refreshes_trans w1 w2 w3 :
  refreshes w1 w2 -> refreshes w2 w3 -> refreshes w1 w3.
Proof.
  intros [Hc12 H12] [Hc23 H23]. split; [lia |].
  intros id s' Hl. destruct (H23 id s' Hl) as [Hold | Hnew]; [| right; lia].
  destruct (H12 id s' Hold) as [Hold' | Hnew]; [now left | right; lia].
Qed.

(** Settles a leaf of an execution that left the registry alone. *)
Ltac registry_kept :=
  unfold ret; cbn [final];
  split; [cbn [clock]; lia | intros ? ? Hl; left; exact Hl].

(** Settles the leaf of [login] that registers the session. *)
Ltac registry_grown :=
  unfold ret; cbn [final];
  split; [cbn [clock]; lia |];
  cbn [sessions clock];
  let Hl := fresh "Hl" in
  intros ? ? Hl;
  apply lookup_insert_Some in Hl as [[_ <-] | [_ Hl]]; [right | now left];
  cbn [LastActive mono]; lia.

Lemma login_refreshes E r w : refreshes w (final (login E r w)).
Proof.
  unfold login.
  destruct (Form r) as [form |]; [| registry_kept].
  destruct (conf_files E _) as [| | pw ov]; [registry_kept | registry_kept |].
  destruct (negb _); [registry_kept |].
  destruct w as [ss mu g0 clk rd fs ms cs tr].
  unfold chooseOverlay.
  destruct (String.eqb ov "ephemeral").
  - exec. cbn [mkdirs]. exec; try registry_kept.
    destruct mu; [registry_kept |]. exec. registry_grown.
  - rewrite bind_ret. cbn [fst snd mkdirs]. exec; try registry_kept.
    destruct mu; [registry_kept |]. exec. registry_grown.
Qed.

(** What the block shared by [session], [proxyHandler] and [ping] does
    under the mutex. *)
Lemma lookupTouch_spec E id w :
  lookupTouch E id w
  = match sessions w !! id with
    | Some s =>
        let now := mkTime (env_wall E (reads w)) (next_reading E w) in
        Ret (Some (touch s now))
            (set_sessions (insert id (touch s now))
               (set_clock (next_reading E w) w))
    | None => Ret None w
    end.
Proof.
  unfold lookupTouch. rewrite bind_get.
  destruct (sessions w !! id); reflexivity.
Qed.

(** A handler that takes the mutex, runs the shared block, releases the
    mutex and answers. *)
Lemma touching_refreshes {B} E id (k : option Session -> M B) w :
  (forall found w1, final (k found w1) = w1) ->
  refreshes w
    (final (bind Lock (fun _ => bind (lookupTouch E id) (fun found =>
              bind Unlock (fun _ => k found))) w)).
Proof.
  intros Hk. rewrite bind_Lock.
  destruct w as [ss mu g0 clk rd fs ms cs tr]. cbn [sessionsMu].
  destruct mu; [apply refreshes_refl |].
  unfold bind at 1. rewrite lookupTouch_spec. cbn [sessions set_mu].
  destruct (ss !! id) as [s |] eqn:Hlook; cbv zeta;
    rewrite bind_Unlock; world_simpl; rewrite Hk.
  - split; [cbn [clock]; lia |]. cbn [sessions clock].
    intros id' s' Hl.
    apply lookup_insert_Some in Hl as [[_ <-] | [_ Hl]]; [right | now left].
    cbn. lia.
  - apply refreshes_refl.
Qed.

Lemma session_refreshes E r w : refreshes w (final (session E r w)).
Proof.
  unfold session. apply touching_refreshes. now intros [s |] w1.
Qed.

Lemma proxyHandler_refreshes E r w : refreshes w (final (proxyHandler E r w)).
Proof.
  unfold proxyHandler. destruct (_ <? _)%nat; [apply refreshes_refl |].
  apply touching_refreshes. now intros [s |] w1.
Qed.

Lemma ping_refreshes E r w : refreshes w (final (ping E r w)).
Proof.
  unfold ping. apply (touching_refreshes E _ (fun _ => ret (Status 200))).
  reflexivity.
Qed.

Lemma stopSession_outcome id w :
  stopSession id w
  = if sessionsMu w then Blocked w
    else match sessions w !! id with
         | Some s => Ret tt (torn_down id s w)
         | None => Ret tt w
         end.
Proof.
  destruct (sessionsMu w) eqn:Hmu; [now apply stopSession_locked |].
  destruct (sessions w !! id) as [s |] eqn:Hlook.
  - now apply stopSession_live.
  - now apply stopSession_absent.
Qed.

Lemma stopSession_refreshes id w : refreshes w (final (stopSession id w)).
Proof.
  rewrite stopSession_outcome.
  destruct (sessionsMu w); [apply refreshes_refl |].
  destruct (sessions w !! id) as [s |]; [| apply refreshes_refl].
  split; [cbn; lia |]. cbn [final sessions torn_down].
  intros id' s' Hl. left. now apply lookup_delete_Some in Hl as [_ Hl].
Qed.

Lemma logout_refreshes r w : refreshes w (final (logout r w)).
Proof.
  unfold logout. pose proof (stopSession_refreshes
    (strings.TrimPrefix (Path r) "/logout/") w) as H.
  unfold bind. now destruct (stopSession _ w).
Qed.

Lemma cleanupScan_clock E order w :
  clock w <= clock (final (cleanupScan E order w)).
Proof.
  assert (0 < Minute) by (unfold Minute; lia).
  destruct (sessionsMu w) eqn:Hmu.
  - rewrite cleanupScan_locked by exact Hmu. cbn. lia.
  - rewrite cleanupScan_free by exact Hmu.
    pose proof (reap_loop_frame E order (slept E w) eq_refl) as Hframe.
    cbv zeta in Hframe. destruct Hframe as (_ & Hm & Hclk & _).
    cbn [slept clock] in Hclk. unfold bind.
    destruct (range_sessions order (reap E) (slept E w)) as [[] w2 | w2 | w2];
      cbn [final] in *; try lia.
    unfold Unlock. rewrite Hm. cbn. lia.
Qed.

Lemma cleanupScan_refreshes E order w :
  refreshes w (final (cleanupScan E order w)).
Proof.
  split; [apply cleanupScan_clock |].
  intros id s' Hl. left. now rewrite cleanupScan_registry in Hl.
Qed.

Lemma final_discard {A} (m : M A) w :
  final (bind m (fun _ => ret tt) w) = final (m w).
Proof. unfold bind. now destruct (m w). Qed.

Lemma after_refreshes E c w : refreshes w (after E c w).
Proof.
  unfold after.
  destruct c as [r | r | r | r | r | order]; cbn [serve];
    rewrite ?final_discard.
  - apply login_refreshes.
  - apply session_refreshes.
  - apply proxyHandler_refreshes.
  - apply ping_refreshes.
  - apply logout_refreshes.
  - apply cleanupScan_refreshes.
Qed.

Lemma after_all_refreshes E cs : forall w, refreshes w (after_all E cs w).
Proof.
  induction cs as [| c rest IH]; intros w; cbn [after_all].
  - apply refreshes_refl.
  - eapply refreshes_trans; [apply after_refreshes | apply IH].
Qed.

Lemma refreshes_timely w w' : timely w -> refreshes w w' -> timely w'.
Proof.
  intros Ht [Hclk Hre] id s' Hl.
  destruct (Hre id s' Hl) as [Hold | Hnew]; [| lia].
  specialize (Ht id s' Hold). lia.
Qed.

Lemma reachable_timely E w : reachable E w -> timely w.
Proof.
  induction 1 as [w [Hempty _] | w c _ IH].
  - intros id s Hl. rewrite Hempty in Hl. discriminate.
  - eapply refreshes_timely; [exact IH | apply after_refreshes].
Qed.

(** *** The mutex is released by every call that returns *)

Ltac mutex_kept :=
  let H := fresh "H" in
  unfold ret; intros H; injection H; intros; subst; reflexivity.

Lemma login_mutex E r w resp w' :
  login E r w = Ret resp w' -> sessionsMu w' = sessionsMu w.
Proof.
  unfold login.
  destruct (Form r) as [form |]; [| mutex_kept].
  destruct (conf_files E _) as [| | pw ov]; [mutex_kept | mutex_kept |].
  destruct (negb _); [mutex_kept |].
  destruct w as [ss mu g0 clk rd fs ms cs tr].
  unfold chooseOverlay.
  destruct (String.eqb ov "ephemeral").
  - exec. cbn [mkdirs]. exec; try mutex_kept.
    destruct mu; [discriminate |]. exec. mutex_kept.
  - rewrite bind_ret. cbn [fst snd mkdirs]. exec; try mutex_kept.
    destruct mu; [discriminate |]. exec. mutex_kept.
Qed.

Lemma touching_mutex {B} E id (k : option Session -> M B) w b w' :
  (forall found w1 b1 w2, k found w1 = Ret b1 w2 -> w2 = w1) ->
  bind Lock (fun _ => bind (lookupTouch E id) (fun found =>
    bind Unlock (fun _ => k found))) w = Ret b w' ->
  sessionsMu w' = false.
Proof.
  intros Hk. rewrite bind_Lock.
  destruct w as [ss mu g0 clk rd fs ms cs tr]. cbn [sessionsMu].
  destruct mu; [discriminate |].
  unfold bind at 1. rewrite lookupTouch_spec. cbn [sessions set_mu].
  destruct (ss !! id) as [s |]; cbv zeta; rewrite bind_Unlock; world_simpl;
    intros H; apply Hk in H; now subst w'.
Qed.

Lemma cleanupScan_mutex E order w w' :
  cleanupScan E order w = Ret tt w' -> sessionsMu w' = false.
Proof.
  destruct (sessionsMu w) eqn:Hmu.
  - now rewrite cleanupScan_locked.
  - rewrite cleanupScan_free by exact Hmu.
    pose proof (reap_loop_frame E order (slept E w) eq_refl) as Hframe.
    cbv zeta in Hframe. destruct Hframe as (_ & Hm & _).
    unfold bind.
    destruct (range_sessions order (reap E) (slept E w)) as [[] w2 | w2 | w2];
      try discriminate.
    cbn [final] in Hm. unfold Unlock. rewrite Hm. intros H.
    now injection H as <-.
Qed.

(** A call that starts with the mutex free and returns leaves the mutex
    free. *)
Lemma serve_releases E c w w' :
  sessionsMu w = false -> serve E c w = Ret tt w' -> sessionsMu w' = false.
Proof.
  intros Hmu.
  destruct c as [r | r | r | r | r | order]; cbn [serve];
    try (intros H; apply bind_inv in H as (resp & w0 & Hrun & H);
         injection H as <-).
  - apply login_mutex in Hrun. congruence.
  - revert Hrun. unfold session. apply touching_mutex.
    intros [s |] ? ? ? H; now injection H.
  - revert Hrun. unfold proxyHandler. destruct (_ <? _)%nat.
    + intros H. now injection H as _ <-.
    + apply touching_mutex. intros [s |] ? ? ? H; now injection H.
  - revert Hrun. unfold ping.
    apply (touching_mutex E _ (fun _ => ret (Status 200))).
    intros ? ? ? ? H; now injection H.
  - revert Hrun. unfold logout. intros H.
    apply bind_inv in H as ([] & w2 & Hstop & H). injection H as _ <-.
    rewrite stopSession_outcome, Hmu in Hstop.
    destruct (sessions w !! _); now injection Hstop as <-.
  - apply cleanupScan_mutex.
Qed.

(** A touch stores the reading of the clock taken under the mutex. *)
Lemma ping_touches E r w s :
  sessionsMu w = false ->
  sessions w !! strings.TrimPrefix (Path r) "/ping/" = Some s ->
  exists w',
    ping E r w = Ret (Status 200) w'
    /\ sessions w' !! strings.TrimPrefix (Path r) "/ping/"
       = Some (touch s (mkTime (env_wall E (reads w)) (next_reading E w)))
    /\ clock w' = next_reading E w.
Proof.
  intros Hmu Hlook. unfold ping. rewrite bind_Lock, Hmu.
  unfold bind at 1. rewrite lookupTouch_spec. cbn [sessions set_mu].
  rewrite Hlook. cbv zeta. rewrite bind_Unlock. world_simpl.
  eexists. split; [reflexivity |]. cbn [sessions clock].
  now rewrite lookup_insert_eq.
Qed.

(** C8.  Over any run of the gateway from a world it has reached,
    whatever the calls (touches by the session page, the proxy or the
    heartbeat, logins, logouts, turns of the reaper) and whether they
    return or park, a session registered under [id] at the start and at
    the end of the run is at the end at least as recently active as at
    the start: [LastActive] never goes back. *)
Theorem lastActive_monotone E cs w id s s' :
  reachable E w ->
  sessions w !! id = Some s ->
  sessions (after_all E cs w) !! id = Some s' ->
  Time_le (LastActive s) (LastActive s').
Proof.
  intros Hreach Hl Hl'. unfold Time_le.
  pose proof (reachable_timely E w Hreach id s Hl) as Ht.
  destruct (after_all_refreshes E cs w) as [Hclk Hre].
  destruct (Hre id s' Hl') as [Hold | Hnew]; [| lia].
  rewrite Hl in Hold. injection Hold as ->. lia.
Qed.

(** ** The allocator and the registry *)

(** C1 (amended).  The port of a successful login lies in
    [10000, 15000) and is [port_of_seed] of the wall-clock reading that
    seeded the generator for the session id: it is drawn from the random
    source alone, the registry is not consulted. *)
Theorem login_port_of_seed E r w url code w' :
  login E r w = Ret (Redirect url code) w' ->
  exists k s,
    url = "/session/" +:+ id_of_seed (env_wall E k)
    /\ sessions w' !! id_of_seed (env_wall E k) = Some s
    /\ Port s = port_of_seed (env_wall E k)
    /\ 10000 <= Port s < 15000.
Proof.
  intros H. apply login_success in H
    as (form & pw & ov & k & now & dir & H). cbv zeta in H.
  destruct H as (_ & _ & _ & _ & -> & _ & _ & _ & Hreg & _).
  eexists k, _. split; [reflexivity |].
  rewrite Hreg, lookup_insert_eq. split; [reflexivity |].
  cbn [Port]. split; [reflexivity | apply port_of_seed_range].
Qed.

(** C2 (amended).  The id a successful login returns has eight
    characters and is, right after the call, in the registry with a
    [LastActive] read from the clock during the call; every other entry
    of the registry is as it was.  (An entry that was registered under
    the same id is replaced.) *)
Theorem login_registers E r w url code w' :
  login E r w = Ret (Redirect url code) w' ->
  exists id s,
    url = "/session/" +:+ id
    /\ String.length id = 8%nat
    /\ sessions w' !! id = Some s
    /\ clock w <= mono (LastActive s) <= clock w'
    /\ forall id', id' <> id -> sessions w' !! id' = sessions w !! id'.
Proof.
  intros H. apply login_success in H
    as (form & pw & ov & k & now & dir & H). cbv zeta in H.
  destruct H as (_ & _ & _ & _ & -> & _ & _ & _ & Hreg & _ & Hnow & Hclk & _).
  eexists _, _. split; [reflexivity |].
  split; [apply id_of_seed_length |].
  rewrite Hreg, lookup_insert_eq. split; [reflexivity |].
  cbn [LastActive]. split; [lia |].
  intros id' Hne. now rewrite lookup_insert_ne.
Qed.

(** ** Storage *)

(** The merged mountpoint of a session. *)
Lemma stopSession_unmounts w id s :
  sessionsMu w = false -> sessions w !! id = Some s ->
  exists w',
    stopSession id w = Ret tt w'
    /\ Fired (Umount (filepath.Join [OverlayDir s; "merged"])) ∈ trace w'
    /\ mounts w' = unmount (filepath.Join [OverlayDir s; "merged"]) (mounts w).
Proof.
  intros Hmu Hlook. exists (torn_down id s w).
  split; [now apply stopSession_live |]. split; [| reflexivity].
  cbn [trace torn_down]. unfold teardown.
  rewrite !elem_of_app. right. left. set_solver.
Qed.

(** C9.  Two successful logins against configurations with the same
    overlay setting other than [ephemeral] register sessions with that
    setting as their [OverlayDir], both persistent; the two containers
    were launched on the same merged mountpoint below it, and
    [stopSession] of either session runs the unmount of that
    mountpoint. *)
Theorem persistent_logins_share_overlay E r1 r2 w1 w2 url1 url2 code1 code2
  w1' w2' form1 form2 pw1 pw2 ov :
  Form r1 = Some form1 -> Form r2 = Some form2 ->
  conf_files E (filepath.Join [userConfDir; FormValue form1 "username" +:+ ".conf"])
  = Conf pw1 ov ->
  conf_files E (filepath.Join [userConfDir; FormValue form2 "username" +:+ ".conf"])
  = Conf pw2 ov ->
  String.eqb ov "ephemeral" = false ->
  login E r1 w1 = Ret (Redirect url1 code1) w1' ->
  login E r2 w2 = Ret (Redirect url2 code2) w2' ->
  exists id1 id2 s1 s2 port1 port2,
    url1 = "/session/" +:+ id1 /\ url2 = "/session/" +:+ id2
    /\ sessions w1' !! id1 = Some s1 /\ sessions w2' !! id2 = Some s2
    /\ OverlayDir s1 = ov /\ OverlayDir s2 = ov
    /\ Ephemeral s1 = false /\ Ephemeral s2 = false
    /\ last (trace w1')
       = Some (Ran (DockerRun port1 (ContainerName s1)
                      (filepath.Join [ov; "merged"])) None)
    /\ last (trace w2')
       = Some (Ran (DockerRun port2 (ContainerName s2)
                      (filepath.Join [ov; "merged"])) None)
    /\ forall s w id,
         s = s1 \/ s = s2 ->
         sessionsMu w = false -> sessions w !! id = Some s ->
         exists w',
           stopSession id w = Ret tt w'
           /\ Fired (Umount (filepath.Join [ov; "merged"])) ∈ trace w'
           /\ mounts w' = unmount (filepath.Join [ov; "merged"]) (mounts w).
Proof.
  intros Hf1 Hf2 Hc1 Hc2 Hov H1 H2.
  apply login_success in H1 as (f1 & p1 & o1 & k1 & now1 & dir1 & H1).
  apply login_success in H2 as (f2 & p2 & o2 & k2 & now2 & dir2 & H2).
  cbv zeta in H1, H2.
  destruct H1 as (Hf1' & Hc1' & _ & _ & -> & _ & _ & Hdir1 & Hreg1 & _ & _ & _
                  & Htr1 & _).
  destruct H2 as (Hf2' & Hc2' & _ & _ & -> & _ & _ & Hdir2 & Hreg2 & _ & _ & _
                  & Htr2 & _).
  rewrite Hf1 in Hf1'. injection Hf1' as <-.
  rewrite Hf2 in Hf2'. injection Hf2' as <-.
  rewrite Hc1 in Hc1'. injection Hc1' as <- <-.
  rewrite Hc2 in Hc2'. injection Hc2' as <- <-.
  rewrite Hov in *. subst dir1 dir2.
  eexists _, _, _, _, _, _.
  split; [reflexivity |]. split; [reflexivity |].
  rewrite Hreg1, Hreg2, !lookup_insert_eq.
  split; [reflexivity |]. split; [reflexivity |]. cbn [OverlayDir Ephemeral].
  do 4 (split; [reflexivity |]).
  rewrite Htr1, Htr2, !last_app. cbn [last ContainerName].
  do 2 (split; [reflexivity |]).
  intros s w id [-> | ->] Hmu Hlook;
    destruct (stopSession_unmounts w id _ Hmu Hlook) as (w' & ? & ? & ?);
    exists w'; auto.
Qed.

(** C5.  [stopSession] of a live session returns.  For a guest session
    no path at or below its [OverlayDir] exists afterwards.  For a
    persistent session the files of the host are what they were, the
    only commands run are the removal of the container and the unmount
    of the merged mountpoint, and a later login against a configuration
    whose overlay setting is that directory mounts the same upper
    directory again, with every path that existed still there. *)
Theorem stopSession_storage E w id s :
  sessionsMu w = false -> sessions w !! id = Some s ->
  exists w',
    stopSession id w = Ret tt w'
    /\ if Ephemeral s
       then forall q, filepath.under (OverlayDir s) q = true -> q ∉ files w'
       else files w' = files w
            /\ trace w'
               = trace w
                 ++ [Fired (DockerRm (ContainerName s));
                     Fired (Umount (filepath.Join [OverlayDir s; "merged"]))]
            /\ forall r form pw url code w'',
                 Form r = Some form ->
                 conf_files E (filepath.Join
                   [userConfDir; FormValue form "username" +:+ ".conf"])
                 = Conf pw (OverlayDir s) ->
                 String.eqb (OverlayDir s) "ephemeral" = false ->
                 login E r w' = Ret (Redirect url code) w'' ->
                 files w ⊆ files w''
                 /\ Ran (Mount baseOverlay
                           (filepath.Join [OverlayDir s; "upper"])
                           (filepath.Join [OverlayDir s; "work"])
                           (filepath.Join [OverlayDir s; "merged"])) None
                    ∈ trace w''.
Proof.
  intros Hmu Hlook. exists (torn_down id s w).
  split; [now apply stopSession_live |].
  unfold torn_down, teardown. cbn [files trace].
  destruct (Ephemeral s) eqn:Heph.
  - intros q Hq Hin. apply elem_of_filter in Hin as [Hout _]. congruence.
  - split; [reflexivity |]. split; [reflexivity |].
    intros r form pw url code w'' Hform Hconf Hov Hlogin.
    apply login_success in Hlogin as (f & p & o & k & now & dir & H).
    cbv zeta in H.
    destruct H as (Hf & Hc & _ & _ & _ & _ & _ & Hdir & _ & _ & _ & _
                   & Htr & Hfiles & _).
    rewrite Hform in Hf. injection Hf as <-.
    rewrite Hconf in Hc. injection Hc as <- <-.
    rewrite Hov in Hdir. subst dir. cbn [files] in Hfiles.
    split; [exact Hfiles |].
    rewrite Htr. rewrite elem_of_app. right. set_solver.
Qed.

(** A guest logs in and the session is stopped: the directories
    [login] made for the session ([upper], [work], [merged] below the
    guest directory) and the guest directory itself are gone. *)
Lemma guest_storage_removed_by_stop E r w url code w' form pw :
  Form r = Some form ->
  conf_files E (filepath.Join [userConfDir; FormValue form "username" +:+ ".conf"])
  = Conf pw "ephemeral" ->
  login E r w = Ret (Redirect url code) w' ->
  exists id s w'',
    url = "/session/" +:+ id
    /\ sessions w' !! id = Some s
    /\ Ephemeral s = true
    /\ (forall leaf, leaf ∈ ["upper"; "work"; "merged"] ->
          Ran (MkdirAll (OverlayDir s +:+ "/" +:+ leaf)) None ∈ trace w')
    /\ stopSession id w' = Ret tt w''
    /\ (OverlayDir s ∉ files w'')
    /\ (forall leaf, leaf ∈ ["upper"; "work"; "merged"] ->
          (OverlayDir s +:+ "/" +:+ leaf) ∉ files w'').
Proof.
  intros Hform Hconf Hlogin.
  apply login_success in Hlogin as (f & p & o & k & now & dir & H).
  cbv zeta in H.
  destruct H as (Hf & Hc & _ & _ & -> & _ & _ & Hdir & Hreg & Hmu & _ & _
                 & Htr & _).
  rewrite Hform in Hf. injection Hf as <-.
  rewrite Hconf in Hc. injection Hc as <- <-.
  change (String.eqb "ephemeral" "ephemeral") with true in *.
  destruct Hdir as (g & _ & Hg & ->).
  rewrite !Join_guest_leaf in Htr by (exact Hg || reflexivity).
  match type of Hreg with _ = <[?id := ?s]> _ =>
    assert (Hlook : sessions w' !! id = Some s)
      by (rewrite Hreg; apply lookup_insert_eq);
    pose proof (stopSession_live w' id s Hmu Hlook) as Hstop;
    assert (Hgone : forall q, filepath.under (OverlayDir s) q = true ->
                              q ∉ files (torn_down id s w'))
      by (intros q Hq Hin; cbn [files torn_down Ephemeral] in Hin;
          apply elem_of_filter in Hin as [Hout _]; congruence);
    exists id, s, (torn_down id s w')
  end.
  cbn [Ephemeral OverlayDir] in *.
  split; [reflexivity |]. split; [exact Hlook |]. split; [reflexivity |].
  split.
  { intros leaf Hleaf. rewrite Htr, elem_of_app. right.
    repeat (apply elem_of_cons in Hleaf as [-> | Hleaf]; [set_solver |]).
    now apply elem_of_nil in Hleaf. }
  split; [exact Hstop |].
  split; [apply Hgone, under_self |].
  intros leaf _. apply Hgone, under_child.
Qed.

(** ** More of the gateway *)

(** *** Paths of requests *)

Lemma drop_append (p s : string) : strings.drop (String.length p) (p +:+ s) = s.
Proof.
  induction p as [| c p IH]; [reflexivity |].
  rewrite append_cons. exact IH.
Qed.

Lemma TrimPrefix_append (p s : string) : strings.TrimPrefix (p +:+ s) p = s.
Proof.
  unfold strings.TrimPrefix. rewrite HasPrefix_append. apply drop_append.
Qed.

Lemma Cut_append sep (a b : string) :
  strings.no_sep sep a = true ->
  strings.Cut sep (a +:+ String sep b) = Some (a, b).
Proof.
  induction a as [| c a IH]; cbn [strings.no_sep].
  - intros _. rewrite append_nil. cbn [strings.Cut].
    now rewrite Ascii.eqb_refl.
  - intros H. apply andb_prop in H as [Hc Ha].
    apply negb_true_iff in Hc. rewrite append_cons. cbn [strings.Cut].
    now rewrite Hc, (IH Ha).
Qed.

(** *** The shared block under the mutex *)

Lemma touching_outcome {B} E id (k : option Session -> M B) w :
  sessionsMu w = false ->
  bind Lock (fun _ => bind (lookupTouch E id) (fun found =>
    bind Unlock (fun _ => k found))) w
  = match sessions w !! id with
    | Some s =>
        k (Some (touch s (mkTime (env_wall E (reads w)) (next_reading E w))))
          (touched E id s w)
    | None => k None w
    end.
Proof.
  intros Hmu. rewrite bind_Lock.
  destruct w as [ss mu g0 clk rd fs ms cs tr]. cbn [sessionsMu] in *. subst mu.
  unfold bind at 1. rewrite lookupTouch_spec. cbn [sessions set_mu].
  destruct (ss !! id) as [s |]; cbv zeta; rewrite bind_Unlock; reflexivity.
Qed.

(** X7.  With the mutex free, [session] answers 404 for an id that is
    not registered and leaves the world as it was; for a registered id
    it renders [session.html] for that id, and the world differs only
    in that this one session has been touched and the clock read. *)
Theorem session_serves E r w :
  sessionsMu w = false ->
  session E r w
  = match sessions w !! strings.TrimPrefix (Path r) "/session/" with
    | Some s =>
        Ret (Render "session.html"
               (Some (strings.TrimPrefix (Path r) "/session/")))
            (touched E (strings.TrimPrefix (Path r) "/session/") s w)
    | None => Ret (HttpError "Session not found" 404) w
    end.
Proof.
  intros Hmu. unfold session. rewrite touching_outcome by exact Hmu.
  now destruct (sessions w !! _).
Qed.

(** X8.  With the mutex free, [ping] answers 200 whatever the id; for
    an id that is not registered the world stays exactly as it was (no
    session is created), for a registered id only that session is
    touched. *)
Theorem ping_heartbeat E r w :
  sessionsMu w = false ->
  ping E r w
  = Ret (Status 200)
        match sessions w !! strings.TrimPrefix (Path r) "/ping/" with
        | Some s => touched E (strings.TrimPrefix (Path r) "/ping/") s w
        | None => w
        end.
Proof.
  intros Hmu. unfold ping.
  rewrite (touching_outcome E _ (fun _ => ret (Status 200))) by exact Hmu.
  now destruct (sessions w !! _).
Qed.

Lemma proxyHandler_outcome E r w id rest :
  sessionsMu w = false ->
  strings.SplitN2 (strings.TrimPrefix (Path r) "/proxy/") "/" = [id; rest] ->
  proxyHandler E r w
  = match sessions w !! id with
    | Some s => Ret (Forward "127.0.0.1" (Port s) ("/" +:+ rest))
                    (touched E id s w)
    | None => Ret (HttpError "Session not found" 404) w
    end.
Proof.
  intros Hmu Hparts. unfold proxyHandler. rewrite Hparts.
  cbn [length Nat.ltb Nat.leb nth].
  rewrite touching_outcome by exact Hmu.
  now destruct (sessions w !! id).
Qed.

(** X6.  The path [/proxy/id/rest], for an id without a slash, is taken
    apart into the same id and rest it was built from: with the mutex
    free and the id registered, the request is forwarded to the
    session's port with path [/rest], whatever [rest] is (further
    slashes included). *)
Theorem proxyHandler_path_round_trip E w id rest s :
  strings.no_sep "/" id = true ->
  sessionsMu w = false ->
  sessions w !! id = Some s ->
  proxyHandler E {| Path := "/proxy/" +:+ id +:+ "/" +:+ rest; Form := None |} w
  = Ret (Forward "127.0.0.1" (Port s) ("/" +:+ rest)) (touched E id s w).
Proof.
  intros Hid Hmu Hlook.
  rewrite (proxyHandler_outcome E _ w id rest Hmu).
  - now rewrite Hlook.
  - cbn [Path]. rewrite TrimPrefix_append.
    unfold strings.SplitN2.
    change ("/" +:+ rest) with (String "/" rest).
    now rewrite (Cut_append _ _ _ Hid).
Qed.

(** X9.  With the mutex free, [logout] answers with the redirect to [/]
    whether or not the id is registered; afterwards the id is not
    registered and every other entry of the registry is as it was; for
    an id that was not registered nothing at all has changed. *)
Theorem logout_removes r w :
  sessionsMu w = false ->
  exists w',
    logout r w = Ret (Redirect "/" 302) w'
    /\ sessions w' = delete (strings.TrimPrefix (Path r) "/logout/") (sessions w)
    /\ sessionsMu w' = false
    /\ (sessions w !! strings.TrimPrefix (Path r) "/logout/" = None -> w' = w).
Proof.
  intros Hmu. unfold logout. unfold bind.
  rewrite stopSession_outcome, Hmu.
  destruct (sessions w !! _) as [s |] eqn:Hlook.
  - exists (torn_down (strings.TrimPrefix (Path r) "/logout/") s w).
    repeat split; try reflexivity. discriminate.
  - exists w. repeat split; auto.
    symmetry. now apply delete_id.
Qed.

(** *** Rejected and failed logins *)

(** X1.  A run of [login] that changes anything in the world (a
    command run, the clock read, the generator moved, the registry or
    the mutex changed) was made with a parsed form for a user whose
    configuration file could be read and whose configured password is
    the one submitted. *)
Theorem login_needs_credentials E r w :
  final (login E r w) <> w ->
  exists form pw ov,
    Form r = Some form
    /\ conf_files E (filepath.Join
         [userConfDir; FormValue form "username" +:+ ".conf"]) = Conf pw ov
    /\ pw = FormValue form "password".
Proof.
  unfold login.
  destruct (Form r) as [form |]; [| now intros []].
  destruct (conf_files E _) as [| | pw ov] eqn:Hconf; try (now intros []).
  destruct (String.eqb pw (FormValue form "password")) eqn:Hpw;
    [| now intros []].
  apply String.eqb_eq in Hpw. intros _. now exists form, pw, ov.
Qed.

(** Takes the events a run of [login] added apart: [Htr] fixes them,
    [Hin] says one of them is the event looked for.  Leaves of the
    execution without such an event are settled. *)
Ltac event_cases Htr Hin :=
  unfold ret; cbn [final trace]; intros Htr Hin;
  rewrite <- ?app_assoc in Htr;
  first [ apply app_inv_self in Htr | apply app_inv_head in Htr ];
  subst; cbn [app] in Hin;
  repeat (apply elem_of_cons in Hin; destruct Hin as [Hin | Hin];
          [try discriminate |]);
  try (apply elem_of_nil in Hin; contradiction).

(** Splits the leaf of [login] that has reached the mutex. *)
Ltac lock_cases :=
  match goal with
  | |- context [if ?mu then Blocked _ else _] => destruct mu; exec
  end.

(** X2.  Whenever a run of [login] contains a failed mount of the
    overlay, the run returns the 500 answer for it; the mount was of the
    base layer, came right after the three directories were made and is
    the last thing the run did: no container is launched, nothing is
    unmounted or removed (the directories stay), and the registry, the
    mounts and the containers are what they were. *)
Theorem login_mount_failure E r w new lower upper work merged err :
  trace (final (login E r w)) = trace w ++ new ->
  Ran (Mount lower upper work merged) (Some err) ∈ new ->
  exists w',
    login E r w = Ret (HttpError ("Failed to mount overlay: " +:+ err) 500) w'
    /\ new = [Ran (MkdirAll upper) None; Ran (MkdirAll work) None;
              Ran (MkdirAll merged) None;
              Ran (Mount lower upper work merged) (Some err)]
    /\ lower = baseOverlay
    /\ sessions w' = sessions w
    /\ mounts w' = mounts w
    /\ containers w' = containers w
    /\ files w ⊆ files w'.
Proof.
  unfold login.
  destruct (Form r) as [form |]; [| event_cases Htr Hin].
  destruct (conf_files E _) as [| | pw ov];
    [event_cases Htr Hin | event_cases Htr Hin |].
  destruct (negb _); [event_cases Htr Hin |].
  destruct w as [ss mu g0 clk rd fs ms cs tr].
  unfold chooseOverlay.
  destruct (String.eqb ov "ephemeral").
  - exec. cbn [mkdirs]. exec; try lock_cases; event_cases Htr Hin;
      injection Hin as -> -> -> -> ->;
      (eexists; split; [reflexivity |]);
      cbn [sessions mounts containers files];
      repeat (split; [reflexivity |]);
      do 3 apply union_subseteq_l'; reflexivity.
  - rewrite bind_ret. cbn [fst snd mkdirs].
    exec; try lock_cases; event_cases Htr Hin;
      injection Hin as -> -> -> -> ->;
      (eexists; split; [reflexivity |]);
      cbn [sessions mounts containers files];
      repeat (split; [reflexivity |]);
      do 3 apply union_subseteq_l'; reflexivity.
Qed.

(** X3.  Whenever a run of [login] contains a directory that could not
    be made, the run returns the 500 answer for it and stopped there:
    the failed [MkdirAll] is the last thing it did, before it only
    directories were made, nothing was mounted or launched, and the
    registry, the mounts and the containers are what they were. *)
Theorem login_mkdir_failure E r w new dir err :
  trace (final (login E r w)) = trace w ++ new ->
  Ran (MkdirAll dir) (Some err) ∈ new ->
  exists w' made,
    login E r w = Ret (HttpError "Failed to create overlay dirs" 500) w'
    /\ new = map (fun d => Ran (MkdirAll d) None) made
             ++ [Ran (MkdirAll dir) (Some err)]
    /\ (length made < 3)%nat
    /\ sessions w' = sessions w
    /\ mounts w' = mounts w
    /\ containers w' = containers w.
Proof.
  unfold login.
  destruct (Form r) as [form |]; [| event_cases Htr Hin].
  destruct (conf_files E _) as [| | pw ov];
    [event_cases Htr Hin | event_cases Htr Hin |].
  destruct (negb _); [event_cases Htr Hin |].
  destruct w as [ss mu g0 clk rd fs ms cs tr].
  unfold chooseOverlay.
  destruct (String.eqb ov "ephemeral").
  - exec. cbn [mkdirs]. exec; try lock_cases; event_cases Htr Hin;
      injection Hin as -> ->;
      first [ eexists _, []; split; [reflexivity |]; split; [reflexivity |]
            | eexists _, [_]; split; [reflexivity |]; split; [reflexivity |]
            | eexists _, [_; _]; split; [reflexivity |]; split; [reflexivity |] ];
      cbn [length sessions mounts containers];
      repeat split; lia.
  - rewrite bind_ret. cbn [fst snd mkdirs].
    exec; try lock_cases; event_cases Htr Hin;
      injection Hin as -> ->;
      first [ eexists _, []; split; [reflexivity |]; split; [reflexivity |]
            | eexists _, [_]; split; [reflexivity |]; split; [reflexivity |]
            | eexists _, [_; _]; split; [reflexivity |]; split; [reflexivity |] ];
      cbn [length sessions mounts containers];
      repeat split; lia.
Qed.

(** X15.  [login] takes the mutex only to register the session.  A run
    that parks on the mutex has by then made the directories, mounted
    the overlay and launched the container, in that order and with
    nothing after; nothing is rolled back while it waits, and the
    registry is what it was. *)
Theorem login_parks_after_launch E r w w' :
  login E r w = Blocked w' ->
  exists upper work merged port name,
    sessionsMu w = true
    /\ trace w'
       = trace w
         ++ [Ran (MkdirAll upper) None; Ran (MkdirAll work) None;
             Ran (MkdirAll merged) None;
             Ran (Mount baseOverlay upper work merged) None;
             Ran (DockerRun port name merged) None]
    /\ mounts w' = merged :: mounts w
    /\ name ∈ containers w'
    /\ sessions w' = sessions w.
Proof.
  unfold login.
  destruct (Form r) as [form |]; [| discriminate].
  destruct (conf_files E _) as [| | pw ov]; try discriminate.
  destruct (negb _); [discriminate |].
  destruct w as [ss mu g0 clk rd fs ms cs tr].
  unfold chooseOverlay.
  destruct (String.eqb ov "ephemeral").
  - exec. cbn [mkdirs]. exec; try (unfold ret; discriminate).
    destruct mu; exec; [| unfold ret; discriminate].
    intros H. injection H as <-. eexists _, _, _, _, _.
    cbn [sessionsMu trace mounts containers sessions].
    split; [reflexivity |]. split; [now rewrite <- !app_assoc |].
    split; [reflexivity |]. split; [set_solver | reflexivity].
  - rewrite bind_ret. cbn [fst snd mkdirs].
    exec; try (unfold ret; discriminate).
    destruct mu; exec; [| unfold ret; discriminate].
    intros H. injection H as <-. eexists _, _, _, _, _.
    cbn [sessionsMu trace mounts containers sessions].
    split; [reflexivity |]. split; [now rewrite <- !app_assoc |].
    split; [reflexivity |]. split; [set_solver | reflexivity].
Qed.

(** *** The allocator *)

Lemma randSeq_outcome E n w :
  randSeq E n w
  = Ret (fst (draws n (Seed (env_wall E (reads w)))))
        (set_rng (snd (draws n (Seed (env_wall E (reads w)))))
           (set_clock (next_reading E w) w)).
Proof.
  unfold randSeq. unfold bind at 1. unfold time_Now.
  unfold bind at 1. unfold rand_Seed. cbn [wall mono].
  now rewrite randSeq_loop_draws.
Qed.

Lemma letters_member k :
  existsb (Ascii.eqb (nth k letters "a"%char)) letters = true.
Proof.
  do 37 (destruct k as [| k]; [reflexivity |]). reflexivity.
Qed.

Lemma draws_alphabetic n : forall g, alphabetic (fst (draws n g)) = true.
Proof.
  induction n as [| k IH]; intros g; cbn [draws]; [reflexivity |].
  destruct (Intn _ g) as [i g1]. specialize (IH g1).
  destruct (draws k g1) as [rest g2]. unfold alphabetic in *.
  cbn [fst list_ascii_of_string forallb] in *.
  now rewrite letters_member, IH.
Qed.

(** X12.  [randSeq n] never panics: it returns a string of exactly [n]
    characters, each a lower-case letter or a digit of [letters], and
    changes nothing but the clock (read once) and the generator. *)
Theorem randSeq_alphabet E n w :
  exists str w',
    randSeq E n w = Ret str w'
    /\ String.length str = n
    /\ alphabetic str = true
    /\ sessions w' = sessions w /\ sessionsMu w' = sessionsMu w
    /\ trace w' = trace w /\ reads w' = S (reads w).
Proof.
  eexists _, _. split; [apply randSeq_outcome |].
  split; [apply draws_length |]. split; [apply draws_alphabetic |].
  repeat split.
Qed.

(** X13.  [randSeq] reseeds the generator from the wall clock on every
    call, so what it returns does not depend on the generator's state:
    two calls that read the same wall-clock time return the same
    string, on whatever worlds. *)
Theorem randSeq_reseeds E1 E2 n w1 w2 :
  env_wall E1 (reads w1) = env_wall E2 (reads w2) ->
  exists str w1' w2',
    randSeq E1 n w1 = Ret str w1' /\ randSeq E2 n w2 = Ret str w2'.
Proof.
  intros Hwall. eexists _, _, _. rewrite !randSeq_outcome, Hwall.
  split; reflexivity.
Qed.

(** *** What is in the registry *)

Lemma same_identity_refl s : same_identity s s.
Proof. repeat split. Qed.

Lemma same_identity_touch s now : same_identity s (touch s now).
Proof. repeat split. Qed.

Lemma well_formed_same id s s' :
  same_identity s s' -> well_formed id s -> well_formed id s'.
Proof.
  intros (Hu & Hn & Ho & Hp & He) (Hlen & Hal & Hname & Hport & Hguest).
  unfold well_formed. rewrite Hu, Hn, Ho, Hp, He. auto.
Qed.

Lemma shapes_refl w : shapes w w.
Proof. intros id s' Hl. left. exists s'. split; [exact Hl | apply same_identity_refl]. Qed.

Lemma shapes_touched E id s w :
  sessions w !! id = Some s -> shapes w (touched E id s w).
Proof.
  intros Hlook id' s' Hl. left. cbn [sessions touched] in Hl.
  apply lookup_insert_Some in Hl as [[<- <-] | [_ Hl]].
  - exists s. split; [exact Hlook | apply same_identity_touch].
  - exists s'. split; [exact Hl | apply same_identity_refl].
Qed.

Lemma shapes_torn_down id s w : shapes w (torn_down id s w).
Proof.
  intros id' s' Hl. left. cbn [sessions torn_down] in Hl.
  apply lookup_delete_Some in Hl as [_ Hl].
  exists s'. split; [exact Hl | apply same_identity_refl].
Qed.

(** Settles a leaf of [login] that left the registry alone. *)
Ltac shape_kept :=
  unfold ret; cbn [final]; intros ? ? Hl; left; eexists;
  split; [exact Hl | apply same_identity_refl].

Lemma guest_token E k :
  exists g, String.length g = 6%nat /\ alphabetic g = true
            /\ filepath.Join ["/srv/overlays";
                              "guest-" +:+ fst (draws 6 (Seed (env_wall E k)))]
               = "/srv/overlays/guest-" +:+ g.
Proof.
  eexists. split; [apply draws_length |]. split; [apply draws_alphabetic |].
  apply Join_guest, draws_no_sep.
Qed.

Lemma login_shapes E r w : shapes w (final (login E r w)).
Proof.
  unfold login.
  destruct (Form r) as [form |]; [| shape_kept].
  destruct (conf_files E _) as [| | pw ov]; [shape_kept | shape_kept |].
  destruct (negb _); [shape_kept |].
  destruct w as [ss mu g0 clk rd fs ms cs tr].
  unfold chooseOverlay.
  destruct (String.eqb ov "ephemeral").
  - exec. cbn [mkdirs]. exec; try shape_kept.
    destruct mu; [shape_kept |]. exec.
    unfold ret, shapes; cbn [final sessions]. intros id s' Hl.
    apply lookup_insert_Some in Hl as [[<- <-] | [_ Hl]];
      [right | left; eexists; split; [exact Hl | apply same_identity_refl]].
    unfold well_formed. cbn [Username ContainerName OverlayDir Port Ephemeral].
    split; [apply draws_length |]. split; [apply draws_alphabetic |].
    split; [reflexivity |].
    split; [pose proof (Intn_range 5000
              (snd (draws 8 (Seed (env_wall E (S rd))))) ltac:(lia)); lia |].
    intros _. apply guest_token.
  - rewrite bind_ret. cbn [fst snd mkdirs]. exec; try shape_kept.
    destruct mu; [shape_kept |]. exec.
    unfold ret, shapes; cbn [final sessions]. intros id s' Hl.
    apply lookup_insert_Some in Hl as [[<- <-] | [_ Hl]];
      [right | left; eexists; split; [exact Hl | apply same_identity_refl]].
    unfold well_formed. cbn [Username ContainerName OverlayDir Port Ephemeral].
    split; [apply draws_length |]. split; [apply draws_alphabetic |].
    split; [reflexivity |].
    split; [pose proof (Intn_range 5000
              (snd (draws 8 (Seed (env_wall E rd)))) ltac:(lia)); lia |].
    discriminate.
Qed.

Lemma final_answer {A B} (m : M A) (b : B) w :
  final (bind m (fun _ => ret b) w) = final (m w).
Proof. unfold bind. now destruct (m w). Qed.

(** The world a handler built around the shared block ends in. *)
Lemma touching_final {B} E id (k : option Session -> M B) w :
  (forall found w1, final (k found w1) = w1) ->
  final (bind Lock (fun _ => bind (lookupTouch E id) (fun found =>
           bind Unlock (fun _ => k found))) w)
  = if sessionsMu w then w
    else match sessions w !! id with
         | Some s => touched E id s w
         | None => w
         end.
Proof.
  intros Hk. destruct (sessionsMu w) eqn:Hmu.
  - rewrite bind_Lock, Hmu. reflexivity.
  - rewrite touching_outcome by exact Hmu.
    destruct (sessions w !! id); apply Hk.
Qed.

Lemma shapes_touching w w' E id :
  w' = (if sessionsMu w then w
        else match sessions w !! id with
             | Some s => touched E id s w
             | None => w
             end) ->
  shapes w w'.
Proof.
  intros ->. destruct (sessionsMu w); [apply shapes_refl |].
  destruct (sessions w !! id) as [s |] eqn:Hlook;
    [now apply shapes_touched | apply shapes_refl].
Qed.

Lemma after_shapes E c w : shapes w (after E c w).
Proof.
  unfold after.
  destruct c as [r | r | r | r | r | order]; cbn [serve];
    rewrite ?final_discard.
  - apply login_shapes.
  - unfold session. eapply shapes_touching. apply touching_final.
    now intros [s |] w1.
  - unfold proxyHandler. destruct (_ <? _)%nat; [apply shapes_refl |].
    eapply shapes_touching. apply touching_final. now intros [s |] w1.
  - unfold ping. eapply shapes_touching.
    apply (touching_final E _ (fun _ => ret (Status 200))). reflexivity.
  - unfold logout. rewrite final_answer, stopSession_outcome.
    destruct (sessionsMu w); [apply shapes_refl |].
    destruct (sessions w !! _); [apply shapes_torn_down | apply shapes_refl].
  - intros id s' Hl. rewrite cleanupScan_registry in Hl.
    now apply shapes_refl.
Qed.

(** X11.  In every world the gateway reaches, every registered session
    is as [login] made it: its id has eight characters of [letters],
    its container is named [desktop-<user>-<id>], its port lies in
    [10000, 15000), and a guest session's overlay directory is
    [/srv/overlays/guest-] followed by six characters of [letters]. *)
Theorem registry_well_formed E w id s :
  reachable E w -> sessions w !! id = Some s -> well_formed id s.
Proof.
  intros Hreach. revert id s.
  induction Hreach as [w [Hempty _] | w c _ IH]; intros id s Hl.
  - rewrite Hempty in Hl. discriminate.
  - destruct (after_shapes E c w id s Hl) as [(s0 & Hl0 & Hsame) | Hwf];
      [| exact Hwf].
    eapply well_formed_same; [exact Hsame | eauto].
Qed.

(** X16.  No call but a login registers a session: after a request to
    the session page, the proxy, the heartbeat or the logout, or a turn
    of the reaper, every registered id was registered before. *)
Theorem only_login_registers E c w id :
  is_login c = false ->
  is_Some (sessions (after E c w) !! id) ->
  is_Some (sessions w !! id).
Proof.
  intros Hc [s' Hl].
  destruct (after_shapes E c w id s' Hl) as [(s0 & Hl0 & _) | _]; [eauto |].
  revert Hl. unfold after.
  destruct c as [r | r | r | r | r | order]; [discriminate | | | | |];
    cbn [serve]; rewrite ?final_discard.
  - unfold session. rewrite touching_final by (now intros [s |] w1).
    destruct (sessionsMu w); [eauto |].
    destruct (sessions w !! _) as [s |] eqn:Hlook; [| eauto].
    cbn [sessions touched]. intros Hl.
    apply lookup_insert_Some in Hl as [[<- _] | [_ Hl]]; eauto.
  - unfold proxyHandler. destruct (_ <? _)%nat; [cbn [final]; eauto |].
    rewrite touching_final by (now intros [s |] w1).
    destruct (sessionsMu w); [eauto |].
    destruct (sessions w !! _) as [s |] eqn:Hlook; [| eauto].
    cbn [sessions touched]. intros Hl.
    apply lookup_insert_Some in Hl as [[<- _] | [_ Hl]]; eauto.
  - unfold ping.
    rewrite (touching_final E _ (fun _ => ret (Status 200))) by reflexivity.
    destruct (sessionsMu w); [eauto |].
    destruct (sessions w !! _) as [s |] eqn:Hlook; [| eauto].
    cbn [sessions touched]. intros Hl.
    apply lookup_insert_Some in Hl as [[<- _] | [_ Hl]]; eauto.
  - unfold logout. rewrite final_answer, stopSession_outcome.
    destruct (sessionsMu w); [cbn [final]; eauto |].
    destruct (sessions w !! _); cbn [final sessions torn_down]; [| eauto].
    intros Hl. apply lookup_delete_Some in Hl as [_ Hl]. eauto.
  - rewrite cleanupScan_registry. eauto.
Qed.

(** *** A login and what follows it *)

(** X4.  The page a successful [login] redirects to is served: the
    request for the redirect URL, made next, is answered by [session]
    with the page for the id just registered, and that session is
    touched. *)
Theorem login_then_session E r w url code w' form :
  login E r w = Ret (Redirect url code) w' ->
  exists id s,
    url = "/session/" +:+ id
    /\ sessions w' !! id = Some s
    /\ session E {| Path := url; Form := form |} w'
       = Ret (Render "session.html" (Some id)) (touched E id s w').
Proof.
  intros H. apply login_success in H
    as (f & pw & ov & k & now & dir & H). cbv zeta in H.
  destruct H as (_ & _ & _ & _ & -> & _ & _ & _ & Hreg & Hmu & _).
  eexists _, _. split; [reflexivity |].
  assert (Hlook : sessions w' !! id_of_seed (env_wall E k) = Some _)
    by (rewrite Hreg; apply lookup_insert_eq).
  split; [exact Hlook |].
  unfold session. cbn [Path]. rewrite TrimPrefix_append.
  rewrite touching_outcome by exact Hmu. now rewrite Hlook.
Qed.

(** X5.  The desktop of a successful [login] is reached through the
    proxy: a request for [/proxy/<id>/<rest>] with the id of the
    redirect URL, made next, is forwarded to [127.0.0.1] on the port the
    login allocated, with path [/<rest>]. *)
Theorem login_then_proxy E r w url code w' rest form :
  login E r w = Ret (Redirect url code) w' ->
  exists id s,
    url = "/session/" +:+ id
    /\ sessions w' !! id = Some s
    /\ 10000 <= Port s < 15000
    /\ proxyHandler E
         {| Path := "/proxy/" +:+ id +:+ "/" +:+ rest; Form := form |} w'
       = Ret (Forward "127.0.0.1" (Port s) ("/" +:+ rest)) (touched E id s w').
Proof.
  intros H. apply login_success in H
    as (f & pw & ov & k & now & dir & H). cbv zeta in H.
  destruct H as (_ & _ & _ & _ & -> & _ & _ & _ & Hreg & Hmu & _).
  eexists _, _. split; [reflexivity |].
  assert (Hlook : sessions w' !! id_of_seed (env_wall E k) = Some _)
    by (rewrite Hreg; apply lookup_insert_eq).
  split; [exact Hlook |]. cbn [Port].
  split; [apply port_of_seed_range |].
  rewrite (proxyHandler_outcome E _ w' (id_of_seed (env_wall E k)) rest Hmu).
  - now rewrite Hlook.
  - cbn [Path]. rewrite TrimPrefix_append. unfold strings.SplitN2.
    change ("/" +:+ rest) with (String "/" rest).
    rewrite Cut_append; [reflexivity | apply draws_no_sep].
Qed.

(** X10.  A successful [login] followed by the [logout] of the id it
    returned undoes the registration and the mount: the registry is the
    one before the login without that id, the stack of mounts is the one
    before the login, and the logout ran the teardown of the session
    just made. *)
Theorem login_then_logout E r w url code w' form :
  login E r w = Ret (Redirect url code) w' ->
  exists id s w'',
    url = "/session/" +:+ id
    /\ sessions w' !! id = Some s
    /\ logout {| Path := "/logout/" +:+ id; Form := form |} w'
       = Ret (Redirect "/" 302) w''
    /\ sessions w'' = delete id (sessions w)
    /\ mounts w'' = mounts w
    /\ trace w'' = trace w' ++ teardown s
    /\ sessionsMu w'' = false.
Proof.
  intros H. apply login_success in H
    as (f & pw & ov & k & now & dir & H). cbv zeta in H.
  destruct H as (_ & _ & _ & _ & -> & _ & _ & _ & Hreg & Hmu & _ & _ & _ & _
                 & Hmounts).
  match type of Hreg with _ = <[?id := ?s]> _ =>
    assert (Hlook : sessions w' !! id = Some s)
      by (rewrite Hreg; apply lookup_insert_eq);
    exists id, s, (torn_down id s w')
  end.
  split; [reflexivity |]. split; [exact Hlook |].
  split.
  { unfold logout. cbn [Path]. rewrite TrimPrefix_append. unfold bind.
    now rewrite stopSession_outcome, Hmu, Hlook. }
  cbn [sessions mounts trace sessionsMu torn_down OverlayDir].
  rewrite Hreg, Hmounts, delete_insert_eq, unmount_top. repeat split.
Qed.

(** *** A turn of the reaper with nothing to reap *)

Lemma elapse_sum_nonneg E n : forall from, 0 <= elapse_sum E from n.
Proof.
  induction n as [| k IH]; intros from; cbn [elapse_sum]; [lia |].
  specialize (IH (S from)). lia.
Qed.

Lemma elapse_sum_S E n : forall from,
  elapse_sum E from n <= elapse_sum E from (S n).
Proof.
  induction n as [| k IH]; intros from.
  - cbn [elapse_sum]. lia.
  - specialize (IH (S from)). cbn [elapse_sum] in *. lia.
Qed.

(** Under the mutex, with no session idle by the time [deadline], the
    loop visits its keys and returns, having read the clock and nothing
    else. *)
Lemma reap_loop_passes E deadline order : forall w,
  clock w + elapse_sum E (reads w) (length order) <= deadline ->
  (forall id s, sessions w !! id = Some s ->
                deadline - mono (LastActive s) <= sessionExpiry) ->
  exists w',
    range_sessions order (reap E) w = Ret tt w'
    /\ sessions w' = sessions w /\ sessionsMu w' = sessionsMu w
    /\ trace w' = trace w /\ files w' = files w /\ mounts w' = mounts w
    /\ containers w' = containers w /\ rng w' = rng w.
Proof.
  induction order as [| id rest IH]; intros w Hbound Hfresh.
  - exists w. repeat split.
  - cbn [length] in Hbound.
    destruct (sessions w !! id) as [s |] eqn:Hlook.
    + rewrite (range_sessions_live _ _ s) by exact Hlook.
      pose proof (elapse_sum_nonneg E (length rest) (S (reads w))) as Hpos.
      cbn [elapse_sum] in Hbound.
      assert (Hnow : next_reading E w - mono (LastActive s) <= sessionExpiry).
      { specialize (Hfresh id s Hlook). unfold next_reading. lia. }
      rewrite (bind_Ret _ _ _ _ _ (reap_fresh E id s w Hnow)).
      destruct (IH (set_clock (next_reading E w) w)) as (w' & Hrun & Hrest).
      * unfold next_reading. cbn [clock reads set_clock]. lia.
      * exact Hfresh.
      * exists w'. split; [exact Hrun | exact Hrest].
    + rewrite range_sessions_absent by exact Hlook.
      apply IH; [| exact Hfresh].
      pose proof (elapse_sum_S E (length rest) (reads w)). lia.
Qed.

(** X14.  A turn of the reaper over a registry in which no session is
    idle by the end of the turn returns: the mutex is free again, the
    registry, the host and the trace are what they were; only time has
    passed.  (An empty registry is such a registry.) *)
Theorem cleanupScan_passes E order w :
  sessionsMu w = false ->
  (forall id s, sessions w !! id = Some s ->
     scan_deadline E w (length order) - mono (LastActive s) <= sessionExpiry) ->
  exists w',
    cleanupScan E order w = Ret tt w'
    /\ sessions w' = sessions w /\ sessionsMu w' = false
    /\ trace w' = trace w /\ files w' = files w /\ mounts w' = mounts w
    /\ containers w' = containers w
    /\ clock w + 1 * Minute <= clock w'.
Proof.
  intros Hmu Hfresh. rewrite cleanupScan_free by exact Hmu.
  destruct (reap_loop_passes E (scan_deadline E w (length order)) order
              (slept E w)) as (w1 & Hrun & Hs & Hm & Ht & Hf & Hmo & Hc & _).
  { unfold scan_deadline. cbn [clock reads slept elapse_sum]. lia. }
  { exact Hfresh. }
  pose proof (reap_loop_frame E order (slept E w) eq_refl) as Hframe.
  cbv zeta in Hframe. rewrite Hrun in Hframe. cbn [final] in Hframe.
  destruct Hframe as (_ & _ & Hclk & _).
  rewrite (bind_Ret _ _ _ _ _ Hrun). unfold Unlock.
  cbn [sessionsMu slept] in Hm. rewrite Hm.
  eexists. split; [reflexivity |].
  cbn [sessions sessionsMu trace files mounts containers clock set_mu slept] in *.
  repeat split; auto. lia.
Qed.

(** *** The mutex and the runtime *)

(** Settles a leaf of [login] for [login_safe]. *)
Ltac safe_leaf :=
  let Hheld := fresh "Hheld" in
  unfold ret; cbn [final sessions sessionsMu];
  split;
  [ intros ? ?; discriminate
  | intros Hheld;
    first [ discriminate
          | split; [reflexivity | exact Hheld]
          | split; reflexivity ] ].

Lemma login_safe E r w :
  (forall w', login E r w <> Panicked w')
  /\ (sessionsMu w = true ->
      sessions (final (login E r w)) = sessions w
      /\ sessionsMu (final (login E r w)) = true).
Proof.
  unfold login.
  destruct (Form r) as [form |]; [| safe_leaf].
  destruct (conf_files E _) as [| | pw ov]; [safe_leaf | safe_leaf |].
  destruct (negb _); [safe_leaf |].
  destruct w as [ss mu g0 clk rd fs ms cs tr]. cbn [sessions sessionsMu].
  unfold chooseOverlay.
  destruct (String.eqb ov "ephemeral").
  - exec. cbn [mkdirs]. exec; try safe_leaf.
    destruct mu; exec; safe_leaf.
  - rewrite bind_ret. cbn [fst snd mkdirs]. exec; try safe_leaf.
    destruct mu; exec; safe_leaf.
Qed.

Lemma reap_loop_no_panic E order : forall w w',
  sessionsMu w = true -> range_sessions order (reap E) w <> Panicked w'.
Proof.
  induction order as [| id rest IH]; intros w w' Hmu; [discriminate |].
  destruct (sessions w !! id) as [s |] eqn:Hlook.
  2: { rewrite range_sessions_absent by exact Hlook. now apply IH. }
  rewrite (range_sessions_live _ _ s) by exact Hlook.
  destruct (Z_le_gt_dec (next_reading E w - mono (LastActive s)) sessionExpiry)
    as [Hfresh | Hidle].
  - rewrite (bind_Ret _ _ _ _ _ (reap_fresh E id s w Hfresh)). now apply IH.
  - rewrite (bind_Blocked _ _ _ _ (reap_idle_locked E id s w Hmu ltac:(lia))).
    discriminate.
Qed.

Lemma cleanupScan_no_panic E order w w' :
  cleanupScan E order w <> Panicked w'.
Proof.
  destruct (sessionsMu w) eqn:Hmu.
  - now rewrite cleanupScan_locked.
  - rewrite cleanupScan_free by exact Hmu.
    pose proof (reap_loop_frame E order (slept E w) eq_refl) as Hframe.
    cbv zeta in Hframe. destruct Hframe as (_ & Hm & _).
    pose proof (reap_loop_no_panic E order (slept E w)) as Hsafe.
    unfold bind.
    destruct (range_sessions order (reap E) (slept E w)) as [[] w2 | w2 | w2].
    + cbn [final] in Hm. unfold Unlock. now rewrite Hm.
    + discriminate.
    + now destruct (Hsafe w2).
Qed.

Lemma answer_no_panic {A B} (m : M A) (b : B) w w' :
  (forall w1, m w <> Panicked w1) ->
  bind m (fun _ => ret b) w <> Panicked w'.
Proof.
  intros Hm. unfold bind. destruct (m w) as [a w1 | w1 | w1];
    [discriminate | discriminate | now destruct (Hm w1)].
Qed.

Lemma touching_no_panic {B} E id (k : option Session -> M B) w w' :
  (forall found w1 w2, k found w1 <> Panicked w2) ->
  bind Lock (fun _ => bind (lookupTouch E id) (fun found =>
    bind Unlock (fun _ => k found))) w <> Panicked w'.
Proof.
  intros Hk. destruct (sessionsMu w) eqn:Hmu.
  - now rewrite bind_Lock, Hmu.
  - rewrite touching_outcome by exact Hmu.
    destruct (sessions w !! id); apply Hk.
Qed.

(** X18.  No call makes the runtime abort: the gateway never unlocks
    the mutex without holding it, never draws from an empty range and
    never indexes [letters] out of range; a call returns or parks on
    the mutex. *)
Theorem serve_never_panics E c w w' : serve E c w <> Panicked w'.
Proof.
  destruct c as [r | r | r | r | r | order]; cbn [serve].
  - apply answer_no_panic. apply login_safe.
  - apply answer_no_panic. intros w1. unfold session.
    apply touching_no_panic. now intros [s |] ? ?.
  - apply answer_no_panic. intros w1. unfold proxyHandler.
    destruct (_ <? _)%nat; [discriminate |].
    apply touching_no_panic. now intros [s |] ? ?.
  - apply answer_no_panic. intros w1. unfold ping.
    apply (touching_no_panic E _ (fun _ => ret (Status 200))). discriminate.
  - apply answer_no_panic. intros w1. unfold logout.
    apply answer_no_panic. intros w2. rewrite stopSession_outcome.
    destruct (sessionsMu w); [discriminate |].
    destruct (sessions w !! _); discriminate.
  - apply cleanupScan_no_panic.
Qed.

(** X17.  The registry is only changed under the mutex: while the mutex
    is held, no call changes the registry or releases the mutex,
    whatever else it does before it parks. *)
Theorem registry_guarded E c w :
  sessionsMu w = true ->
  sessions (after E c w) = sessions w /\ sessionsMu (after E c w) = true.
Proof.
  intros Hmu. unfold after.
  destruct c as [r | r | r | r | r | order]; cbn [serve];
    rewrite ?final_discard.
  - now apply login_safe.
  - unfold session. rewrite touching_final by (now intros [s |] w1).
    now rewrite Hmu.
  - unfold proxyHandler. destruct (_ <? _)%nat; [now cbn [final] |].
    rewrite touching_final by (now intros [s |] w1). now rewrite Hmu.
  - unfold ping.
    rewrite (touching_final E _ (fun _ => ret (Status 200))) by reflexivity.
    now rewrite Hmu.
  - unfold logout. rewrite final_answer, stopSession_outcome, Hmu. now cbn.
  - rewrite cleanupScan_locked by exact Hmu. now cbn.
Qed.

End Properties.

(** * The sample host *)

#[local] Existing Instance counter_rand.

(** ** Paths *)

Example Join_overlay_upper :
  filepath.Join ["/srv/overlays/alice"; "upper"] = "/srv/overlays/alice/upper".
Proof. reflexivity. Qed.

Example Join_conf_path :
  filepath.Join ["./users"; "alice.conf"] = "users/alice.conf".
Proof. reflexivity. Qed.

Example Join_dotdot :
  filepath.Join ["./users"; "../../etc/x.conf"] = "../etc/x.conf".
Proof. reflexivity. Qed.

Example Join_empty_first :
  filepath.Join [""; "upper"] = "upper".
Proof. reflexivity. Qed.

Example chain_upper :
  filepath.chain "/srv/overlays/alice/upper"
  = ["/srv"; "/srv/overlays"; "/srv/overlays/alice"; "/srv/overlays/alice/upper"].
Proof. reflexivity. Qed.

Example SplitN2_id_rest :
  strings.SplitN2 (strings.TrimPrefix "/proxy/abc/vnc/x.js" "/proxy/") "/"
  = ["abc"; "vnc/x.js"].
Proof. reflexivity. Qed.

(** ** The sample runs *)

Example alice_logs_in :
  login (host_at 0) alice_req empty_world
  = Ret (Redirect "/session/abcdefgh" 302) alice_world
  /\ map_to_list (sessions alice_world)
     = [("abcdefgh",
         {| Username := "alice"; ContainerName := "desktop-alice-abcdefgh";
            OverlayDir := "/srv/overlays/alice"; Port := 10008;
            LastActive := {| wall := 0; mono := 20000000 |};
            Ephemeral := false |})].
Proof. split; vm_compute; reflexivity. Qed.

(** The guest logs in and out: the guest directory is gone, the
    directories above it stay. *)
Example guest_storage_removed :
  elements (files guest_world)
  = ["/srv/overlays/guest-abcdef/work"; "/srv/overlays/guest-abcdef/merged";
     "/srv/overlays/guest-abcdef/upper"; "/srv/overlays/guest-abcdef";
     "/srv/overlays"; "/srv"]
  /\ elements (files (final (logout (get_path "/logout/abcdefgh") guest_world)))
     = ["/srv/overlays"; "/srv"].
Proof. split; vm_compute; reflexivity. Qed.

(** ** Routing on the sample host *)

Lemma proxyHandler_malformed_untouched_witness :
  proxyHandler (host_at 0) (get_path "/proxy/") alice_world
  = Ret (HttpError "Bad proxy path" 400) alice_world.
Proof.
  apply (proxyHandler_malformed_untouched (host_at 0) (get_path "/proxy/")
           alice_world).
  vm_compute. lia.
Defined.

Lemma proxyHandler_routes_witness :
  match sessions alice_world !! "abcdefgh" with
  | None =>
      proxyHandler (host_at 0) (get_path "/proxy/abcdefgh/vnc.html") alice_world
      = Ret (HttpError "Session not found" 404) alice_world
  | Some s =>
      exists now w',
        proxyHandler (host_at 0) (get_path "/proxy/abcdefgh/vnc.html") alice_world
        = Ret (Forward "127.0.0.1" (Port s) ("/" +:+ "vnc.html")) w'
        /\ sessions w' = <["abcdefgh" := touch s now]> (sessions alice_world)
        /\ clock alice_world <= mono now
        /\ trace w' = trace alice_world
  end.
Proof.
  apply (proxyHandler_routes (host_at 0) (get_path "/proxy/abcdefgh/vnc.html")
           alice_world "abcdefgh" "vnc.html");
    vm_compute; reflexivity.
Defined.

Example proxy_forwards_to_alice :
  exists w',
    proxyHandler (host_at 0) (get_path "/proxy/abcdefgh/vnc.html") alice_world
    = Ret (Forward "127.0.0.1" 10008 "/vnc.html") w'.
Proof. eexists. vm_compute. reflexivity. Qed.

Example proxy_unknown_session :
  proxyHandler (host_at 0) (get_path "/proxy/nobody/vnc.html") alice_world
  = Ret (HttpError "Session not found" 404) alice_world.
Proof. vm_compute. reflexivity. Qed.

(** ** Teardown on the sample host *)

Lemma stopSession_idempotent_witness :
  exists w1,
    stopSession "abcdefgh" alice_world = Ret tt w1
    /\ stopSession "abcdefgh" w1 = Ret tt w1
    /\ sessions w1 !! "abcdefgh" = None
    /\ trace w1 = trace alice_world
                  ++ match sessions alice_world !! "abcdefgh" with
                     | Some s => teardown s
                     | None => []
                     end.
Proof.
  apply (stopSession_idempotent alice_world "abcdefgh").
  vm_compute. reflexivity.
Defined.

Lemma stopSession_storage_witness :
  exists w',
    stopSession "abcdefgh" guest_world = Ret tt w'
    /\ forall q, filepath.under "/srv/overlays/guest-abcdef" q = true ->
                 q ∉ files w'.
Proof.
  assert (Hlook : sessions guest_world !! "abcdefgh"
                  = Some {| Username := "guest";
                            ContainerName := "desktop-guest-abcdefgh";
                            OverlayDir := "/srv/overlays/guest-abcdef";
                            Port := 10008;
                            LastActive := {| wall := 0; mono := 30000000 |};
                            Ephemeral := true |})
    by (vm_compute; reflexivity).
  exact (stopSession_storage (host_at 0) guest_world "abcdefgh" _
           eq_refl Hlook).
Defined.

Lemma login_rollback_witness :
  exists w' upper work pre,
    login host_without_docker alice_req empty_world
    = Ret (HttpError ("Failed to start container: " +:+ "exit status 125") 500) w'
    /\ [Ran (MkdirAll "/srv/overlays/alice/upper") None;
        Ran (MkdirAll "/srv/overlays/alice/work") None;
        Ran (MkdirAll "/srv/overlays/alice/merged") None;
        Ran (Mount "/srv/overlays/base" "/srv/overlays/alice/upper"
               "/srv/overlays/alice/work" "/srv/overlays/alice/merged") None;
        Ran (DockerRun 10008 "desktop-alice-abcdefgh"
               "/srv/overlays/alice/merged") (Some "exit status 125");
        Fired (Umount "/srv/overlays/alice/merged")]
       = pre ++ [Ran (Mount baseOverlay upper work "/srv/overlays/alice/merged")
                   None;
                 Ran (DockerRun 10008 "desktop-alice-abcdefgh"
                        "/srv/overlays/alice/merged") (Some "exit status 125");
                 Fired (Umount "/srv/overlays/alice/merged")]
    /\ sessions w' = sessions empty_world
    /\ mounts w' = mounts empty_world.
Proof.
  apply (login_rollback host_without_docker alice_req empty_world).
  - vm_compute. reflexivity.
  - do 4 apply list_elem_of_further. apply list_elem_of_here.
Defined.

(** ** The allocator on the sample host *)

(** C1, as stated, fails: alice's session is registered on port 10008
    (her container has exited, the gateway has not noticed); bob's login
    succeeds and is given port 10008 as well. *)
Lemma login_port_collision :
  Port <$> sessions alice_gone_world !! "abcdefgh" = Some 10008
  /\ login (host_at 5000) bob_req alice_gone_world
     = Ret (Redirect "/session/6789abcd" 302) same_port_world
  /\ Port <$> sessions same_port_world !! "abcdefgh" = Some 10008
  /\ Port <$> sessions same_port_world !! "6789abcd" = Some 10008.
Proof. split; [| split; [| split]]; vm_compute; reflexivity. Qed.

Lemma login_port_of_seed_witness :
  exists k s,
    "/session/abcdefgh" = "/session/" +:+ id_of_seed (env_wall (host_at 0) k)
    /\ sessions alice_world !! id_of_seed (env_wall (host_at 0) k) = Some s
    /\ Port s = port_of_seed (env_wall (host_at 0) k)
    /\ 10000 <= Port s < 15000.
Proof.
  apply (login_port_of_seed (host_at 0) alice_req empty_world
           "/session/abcdefgh" 302 alice_world).
  vm_compute. reflexivity.
Defined.

(** C2, as stated, fails: the id [abcdefgh] is alice's live session
    before bob's login; bob's login succeeds and returns [abcdefgh],
    and the entry of the registry is bob's afterwards. *)
Lemma login_id_collision :
  Username <$> sessions alice_world !! "abcdefgh" = Some "alice"
  /\ login (host_at 36) bob_req alice_world
     = Ret (Redirect "/session/abcdefgh" 302) same_id_world
  /\ Username <$> sessions same_id_world !! "abcdefgh" = Some "bob".
Proof. split; [| split]; vm_compute; reflexivity. Qed.

Lemma login_registers_witness :
  exists id s,
    "/session/abcdefgh" = "/session/" +:+ id
    /\ String.length id = 8%nat
    /\ sessions alice_world !! id = Some s
    /\ clock empty_world <= mono (LastActive s) <= clock alice_world
    /\ forall id', id' <> id ->
                   sessions alice_world !! id' = sessions empty_world !! id'.
Proof.
  apply (login_registers (host_at 0) alice_req empty_world
           "/session/abcdefgh" 302 alice_world).
  vm_compute. reflexivity.
Defined.

Lemma persistent_logins_share_overlay_witness :
  exists s1 s2,
    sessions alice_world !! "abcdefgh" = Some s1
    /\ sessions alice_twice_world !! "hijklmno" = Some s2
    /\ OverlayDir s1 = "/srv/overlays/alice"
    /\ OverlayDir s2 = "/srv/overlays/alice".
Proof.
  assert (H1 : login (host_at 7) alice_req empty_world
               = Ret (Redirect "/session/abcdefgh" 302) alice_world)
    by (vm_compute; reflexivity).
  assert (H2 : login (host_at 7) alice_req alice_world
               = Ret (Redirect "/session/hijklmno" 302) alice_twice_world)
    by (vm_compute; reflexivity).
  destruct (persistent_logins_share_overlay (host_at 7) alice_req alice_req
              empty_world alice_world "/session/abcdefgh" "/session/hijklmno"
              302 302 alice_world alice_twice_world
              [("username", "alice"); ("password", "rabbit")]
              [("username", "alice"); ("password", "rabbit")]
              "rabbit" "rabbit" "/srv/overlays/alice"
              eq_refl eq_refl eq_refl eq_refl eq_refl H1 H2)
    as (id1 & id2 & s1 & s2 & p1 & p2 & Hu1 & Hu2 & Hs1 & Hs2 & Ho1 & Ho2 & _).
  injection Hu1 as Hu1. injection Hu2 as Hu2.
  cbv [String.append] in Hu1, Hu2.
  subst id1 id2. exists s1, s2. auto.
Defined.

(** ** Activity on the sample host *)

Lemma lastActive_monotone_witness :
  Time_le {| wall := 0; mono := 20000000 |} {| wall := 0; mono := 30000000 |}.
Proof.
  apply (lastActive_monotone (host_at 0)
           [CallProxy (get_path "/proxy/abcdefgh"); CallPing (get_path "/ping/abcdefgh")]
           alice_world "abcdefgh"
           {| Username := "alice"; ContainerName := "desktop-alice-abcdefgh";
              OverlayDir := "/srv/overlays/alice"; Port := 10008;
              LastActive := {| wall := 0; mono := 20000000 |};
              Ephemeral := false |}
           {| Username := "alice"; ContainerName := "desktop-alice-abcdefgh";
              OverlayDir := "/srv/overlays/alice"; Port := 10008;
              LastActive := {| wall := 0; mono := 30000000 |};
              Ephemeral := false |}).
  - replace alice_world
      with (after (host_at 0) (CallLogin alice_req) empty_world)
      by (vm_compute; reflexivity).
    apply reach_serve. apply reach_init. split; reflexivity.
  - vm_compute. reflexivity.
  - vm_compute. reflexivity.
Defined.

(** ** The reaper on the sample host *)

(** While alice's session is not idle the reaper's turns return and
    leave it registered. *)
Example reaper_keeps_active_session :
  exists w,
    cleanupLoop (host_at 0) (replicate 9 ["abcdefgh"]) alice_world = Ret tt w
    /\ Username <$> sessions w !! "abcdefgh" = Some "alice"
    /\ sessionsMu w = false.
Proof. eexists. split; [| split]; vm_compute; reflexivity. Qed.

(** C6 at the failing input.  Alice has logged in and stays idle.  The
    tenth turn of the reaper finds her session idle for more than
    [sessionExpiry], logs that it kills it, and parks in [stopSession]:
    the session is still registered, nothing has been torn down, the
    mutex stays taken, and a heartbeat that arrives now parks as well. *)
Theorem reaper_parks_on_idle_session :
  cleanupLoop (host_at 0) (replicate 10 ["abcdefgh"]) alice_world
  = Blocked parked_world
  /\ sessionExpiry < clock parked_world - 20000000
  /\ LastActive <$> sessions parked_world !! "abcdefgh"
     = Some {| wall := 0; mono := 20000000 |}
  /\ sessionsMu parked_world = true
  /\ trace parked_world
     = trace alice_world ++ [Logged "Session abcdefgh idle > 10m0s, killing..."]
  /\ mounts parked_world = ["/srv/overlays/alice/merged"]
  /\ ping (host_at 0) (get_path "/ping/abcdefgh") parked_world
     = Blocked parked_world.
Proof.
  split; [| split; [| split; [| split; [| split; [| split]]]]];
    vm_compute; reflexivity.
Qed.

(** ** More of the gateway on the sample host *)

Lemma session_serves_witness :
  session (host_at 0) (get_path "/session/nobody") alice_world
  = Ret (HttpError "Session not found" 404) alice_world.
Proof.
  rewrite (session_serves (host_at 0) (get_path "/session/nobody") alice_world)
    by (vm_compute; reflexivity).
  vm_compute. reflexivity.
Defined.

Lemma ping_heartbeat_witness :
  ping (host_at 0) (get_path "/ping/nobody") alice_world
  = Ret (Status 200) alice_world.
Proof.
  rewrite (ping_heartbeat (host_at 0) (get_path "/ping/nobody") alice_world)
    by (vm_compute; reflexivity).
  vm_compute. reflexivity.
Defined.

Lemma proxyHandler_path_round_trip_witness :
  proxyHandler (host_at 0)
    {| Path := "/proxy/" +:+ "abcdefgh" +:+ "/" +:+ "websockify/1";
       Form := None |} alice_world
  = Ret (Forward "127.0.0.1" (Port alice_session) ("/" +:+ "websockify/1"))
        (touched (host_at 0) "abcdefgh" alice_session alice_world).
Proof.
  apply (proxyHandler_path_round_trip (host_at 0) alice_world "abcdefgh"
           "websockify/1" alice_session);
    vm_compute; reflexivity.
Defined.

Lemma logout_removes_witness :
  exists w',
    logout (get_path "/logout/abcdefgh") alice_world = Ret (Redirect "/" 302) w'
    /\ sessions w' !! "abcdefgh" = None.
Proof.
  destruct (logout_removes (get_path "/logout/abcdefgh") alice_world)
    as (w' & Hrun & Hreg & _); [vm_compute; reflexivity |].
  exists w'. split; [exact Hrun |].
  rewrite Hreg. apply lookup_delete_eq.
Defined.

Lemma login_needs_credentials_witness :
  exists form pw ov,
    Form alice_req = Some form
    /\ conf_files (host_at 0) (filepath.Join
         [userConfDir; FormValue form "username" +:+ ".conf"]) = Conf pw ov
    /\ pw = FormValue form "password".
Proof.
  apply (login_needs_credentials (host_at 0) alice_req empty_world).
  intros H. apply (f_equal reads) in H. vm_compute in H. discriminate.
Defined.

Lemma login_mount_failure_witness :
  exists w',
    login host_without_mount alice_req empty_world
    = Ret (HttpError ("Failed to mount overlay: " +:+ "exit status 32") 500) w'
    /\ sessions w' = sessions empty_world
    /\ mounts w' = mounts empty_world.
Proof.
  destruct (login_mount_failure host_without_mount alice_req empty_world
              [Ran (MkdirAll "/srv/overlays/alice/upper") None;
               Ran (MkdirAll "/srv/overlays/alice/work") None;
               Ran (MkdirAll "/srv/overlays/alice/merged") None;
               Ran (Mount "/srv/overlays/base" "/srv/overlays/alice/upper"
                      "/srv/overlays/alice/work" "/srv/overlays/alice/merged")
                   (Some "exit status 32")]
              "/srv/overlays/base" "/srv/overlays/alice/upper"
              "/srv/overlays/alice/work" "/srv/overlays/alice/merged"
              "exit status 32")
    as (w' & Hrun & _ & _ & Hreg & Hmounts & _).
  - vm_compute. reflexivity.
  - do 3 apply list_elem_of_further. apply list_elem_of_here.
  - exists w'. auto.
Defined.

Lemma login_mkdir_failure_witness :
  exists w',
    login host_without_work_dir alice_req empty_world
    = Ret (HttpError "Failed to create overlay dirs" 500) w'
    /\ sessions w' = sessions empty_world
    /\ mounts w' = mounts empty_world.
Proof.
  destruct (login_mkdir_failure host_without_work_dir alice_req empty_world
              [Ran (MkdirAll "/srv/overlays/alice/upper") None;
               Ran (MkdirAll "/srv/overlays/alice/work")
                   (Some "permission denied")]
              "/srv/overlays/alice/work" "permission denied")
    as (w' & made & Hrun & _ & _ & Hreg & Hmounts & _).
  - vm_compute. reflexivity.
  - apply list_elem_of_further. apply list_elem_of_here.
  - exists w'. auto.
Defined.

Lemma login_parks_after_launch_witness :
  exists upper work merged port name,
    sessionsMu parked_world = true
    /\ trace bob_parked_world
       = trace parked_world
         ++ [Ran (MkdirAll upper) None; Ran (MkdirAll work) None;
             Ran (MkdirAll merged) None;
             Ran (Mount baseOverlay upper work merged) None;
             Ran (DockerRun port name merged) None]
    /\ mounts bob_parked_world = merged :: mounts parked_world
    /\ name ∈ containers bob_parked_world
    /\ sessions bob_parked_world = sessions parked_world.
Proof.
  apply (login_parks_after_launch (host_at 0) bob_req parked_world
           bob_parked_world).
  vm_compute. reflexivity.
Defined.

Lemma randSeq_reseeds_witness :
  exists str w1' w2',
    randSeq (host_at 0) 8 empty_world = Ret str w1'
    /\ randSeq (host_at 0) 8 alice_world = Ret str w2'.
Proof.
  apply (randSeq_reseeds (host_at 0) (host_at 0) 8 empty_world alice_world).
  vm_compute. reflexivity.
Defined.

Lemma registry_well_formed_witness : well_formed "abcdefgh" alice_session.
Proof.
  apply (registry_well_formed (host_at 0) alice_world "abcdefgh" alice_session).
  - replace alice_world
      with (after (host_at 0) (CallLogin alice_req) empty_world)
      by (vm_compute; reflexivity).
    apply reach_serve. apply reach_init. split; reflexivity.
  - vm_compute. reflexivity.
Defined.

Lemma only_login_registers_witness :
  is_Some (sessions alice_world !! "abcdefgh").
Proof.
  apply (only_login_registers (host_at 0)
           (CallPing (get_path "/ping/abcdefgh")) alice_world "abcdefgh").
  - reflexivity.
  - eexists. vm_compute. reflexivity.
Defined.

Lemma login_then_session_witness :
  exists id s,
    "/session/abcdefgh" = "/session/" +:+ id
    /\ sessions alice_world !! id = Some s
    /\ session (host_at 0) {| Path := "/session/abcdefgh"; Form := None |}
         alice_world
       = Ret (Render "session.html" (Some id))
             (touched (host_at 0) id s alice_world).
Proof.
  apply (login_then_session (host_at 0) alice_req empty_world
           "/session/abcdefgh" 302 alice_world None).
  vm_compute. reflexivity.
Defined.

Lemma login_then_proxy_witness :
  exists id s,
    "/session/abcdefgh" = "/session/" +:+ id
    /\ sessions alice_world !! id = Some s
    /\ 10000 <= Port s < 15000
    /\ proxyHandler (host_at 0)
         {| Path := "/proxy/" +:+ id +:+ "/" +:+ "vnc.html"; Form := None |}
         alice_world
       = Ret (Forward "127.0.0.1" (Port s) ("/" +:+ "vnc.html"))
             (touched (host_at 0) id s alice_world).
Proof.
  apply (login_then_proxy (host_at 0) alice_req empty_world
           "/session/abcdefgh" 302 alice_world "vnc.html" None).
  vm_compute. reflexivity.
Defined.

Lemma login_then_logout_witness :
  exists id s w'',
    "/session/abcdefgh" = "/session/" +:+ id
    /\ sessions alice_world !! id = Some s
    /\ logout {| Path := "/logout/" +:+ id; Form := None |} alice_world
       = Ret (Redirect "/" 302) w''
    /\ sessions w'' = delete id (sessions empty_world)
    /\ mounts w'' = mounts empty_world
    /\ trace w'' = trace alice_world ++ teardown s
    /\ sessionsMu w'' = false.
Proof.
  apply (login_then_logout (host_at 0) alice_req empty_world
           "/session/abcdefgh" 302 alice_world None).
  vm_compute. reflexivity.
Defined.

Lemma cleanupScan_passes_witness :
  exists w',
    cleanupScan (host_at 0) ["abcdefgh"] alice_world = Ret tt w'
    /\ sessions w' = sessions alice_world /\ sessionsMu w' = false.
Proof.
  destruct (cleanupScan_passes (host_at 0) ["abcdefgh"] alice_world)
    as (w' & Hrun & Hreg & Hmu & _).
  - vm_compute. reflexivity.
  - intros id s Hl.
    replace (sessions alice_world)
      with ({[ "abcdefgh" := alice_session ]} : gmap string Session) in Hl
      by (vm_compute; reflexivity).
    apply lookup_singleton_Some in Hl as [_ <-].
    apply Z.leb_le. vm_compute. reflexivity.
  - exists w'. auto.
Defined.

Lemma registry_guarded_witness :
  sessions (after (host_at 0) (CallPing (get_path "/ping/abcdefgh")) parked_world)
  = sessions parked_world
  /\ sessionsMu (after (host_at 0) (CallPing (get_path "/ping/abcdefgh"))
                   parked_world) = true.
Proof.
  apply (registry_guarded (host_at 0) (CallPing (get_path "/ping/abcdefgh"))
           parked_world).
  vm_compute. reflexivity.
Defined.
